(** * lint-staged: the git stash workflow ([src/gitWorkflow.js])

    The module drives [git] through [execa] and touches one patch file
    through [fs-promise].  Both are external: the development takes them as
    an environment ([Env]) acting on an abstract world, and embeds the
    module's own code as computations in a state-and-rejection monad that
    threads the module-level variables ([patchPath], [workTree], [trees]),
    the world, and the trace of external calls the code has issued.

    A rejected promise does not roll anything back: the monad returns the
    state reached when the rejection happened.  A synchronous [throw] and a
    rejected promise are the same outcome here.  Calls to [debug] are not
    modelled (they only print when the DEBUG variable asks for it);
    [console.log] is an event of the trace.

    Layout: the values and the monad; the code, function by function; the
    vocabulary in which the properties are stated, with the contract git
    is relied upon to keep; environments to run the code in, a scripted
    one and two one-file repositories; then the facts. *)

From Stdlib Require Import String Ascii List ZArith Bool Lia.
Import ListNotations.
Local Open Scope string_scope.

(** ** JavaScript values the module keeps in its variables *)

Inductive jsval : Type :=
| JUndefined
| JNull
| JStr (s : string).

(** [if (s)] on a string: the empty string is falsy. *)
Definition truthy_str (s : string) : bool := negb (s =? "").

(** [if (v)] / [!v] on the values above. *)
Definition truthy (v : jsval) : bool :=
  match v with
  | JStr s => truthy_str s
  | JUndefined | JNull => false
  end.

(** [v == null]: holds of both [null] and [undefined], the two values with
    which JavaScript says "no value". *)
Definition nullish (v : jsval) : bool :=
  match v with
  | JUndefined | JNull => true
  | JStr _ => false
  end.

(** ** What execa and fs-promise hand back *)

(** The object a successful [execa] call resolves with. *)
Record ExecResult : Type := mkExecResult {
  stdout : string;
  stderr : string
}.

(** The error an [execa] call rejects with when git exits non-zero. *)
Record CommandError : Type := mkCommandError {
  exit_code : Z;
  cmd_stdout : string;
  cmd_stderr : string
}.

Inductive error : Type :=
| CommandFailed (e : CommandError)     (* rejection of execa *)
| JsError (message : string)           (* [new Error(message)] *)
| FsError (code : string).             (* rejection of fs-promise *)

(** [res.stdout] read off a caught rejection. *)
Definition error_stdout (e : error) : jsval :=
  match e with
  | CommandFailed c => JStr (cmd_stdout c)
  | JsError _ | FsError _ => JUndefined
  end.

Inductive outcome (A : Type) : Type :=
| Resolved (a : A)
| Rejected (e : error).
Arguments Resolved {A} a.
Arguments Rejected {A} e.

(** The [options] argument: [{ cwd, gitDir }], itself optional. *)
Record Options : Type := mkOptions {
  cwd : option string;
  gitDir : option string
}.

(** ** The environment *)

Record Env (W : Type) : Type := mkEnv {
  process_cwd : string;
  path_isAbsolute : string -> bool;
  path_resolve : string -> string;
  path_join : string -> string -> string;
  (* execa('git', argv, { cwd }) *)
  execa_git : list string -> string -> W -> (ExecResult + CommandError) * W;
  (* fsp.writeFile(path, data) *)
  fs_writeFile : string -> jsval -> W -> outcome unit * W;
  (* fsp.unlink(path) *)
  fs_unlink : jsval -> W -> outcome unit * W
}.
Arguments process_cwd {W} _.
Arguments path_isAbsolute {W} _ _.
Arguments path_resolve {W} _ _.
Arguments path_join {W} _ _ _.
Arguments execa_git {W} _ _ _ _.
Arguments fs_writeFile {W} _ _ _ _.
Arguments fs_unlink {W} _ _ _.

(** External calls, in the order the code issued them. *)
Inductive event : Type :=
| EvGit (argv : list string) (dir : string)
| EvWriteFile (path : string) (data : jsval)
| EvUnlink (path : jsval)
| EvConsole (msg : string).

(** ** Module state *)

Record state (W : Type) : Type := mkState {
  patchPath : jsval;
  workTree : jsval;
  trees : list string;
  world : W;
  log : list event
}.
Arguments mkState {W} _ _ _ _ _.
Arguments patchPath {W} _.
Arguments workTree {W} _.
Arguments trees {W} _.
Arguments world {W} _.
Arguments log {W} _.

(** The module as freshly loaded: [let patchPath], [let workTree = null],
    [let trees = []]. *)
Definition initial_state {W : Type} (w : W) : state W :=
  mkState JUndefined JNull [] w [].

Definition set_patchPath {W} (v : jsval) (s : state W) : state W :=
  mkState v (workTree s) (trees s) (world s) (log s).
Definition set_workTree {W} (v : jsval) (s : state W) : state W :=
  mkState (patchPath s) v (trees s) (world s) (log s).
Definition set_trees {W} (ts : list string) (s : state W) : state W :=
  mkState (patchPath s) (workTree s) ts (world s) (log s).
(** One external call: the world it leaves and its entry in the trace. *)
Definition record_call {W} (ev : event) (w : W) (s : state W) : state W :=
  mkState (patchPath s) (workTree s) (trees s) w (log s ++ [ev]).

(** ** [String.prototype.split] on a newline *)

Definition newline : ascii := "010"%char.

Fixpoint split_lines (s : string) : list string :=
  match s with
  | EmptyString => [EmptyString]
  | String c rest =>
      if Ascii.eqb c newline then EmptyString :: split_lines rest
      else match split_lines rest with
           | h :: t => String c h :: t
           | [] => [String c EmptyString]
           end
  end.

(** ** The monad *)

Section Monad.
Context {W : Type}.

Definition M (A : Type) : Type := state W -> outcome A * state W.

Definition ret {A} (a : A) : M A := fun s => (Resolved a, s).
Definition throw {A} (e : error) : M A := fun s => (Rejected e, s).

Definition bind {A B} (m : M A) (f : A -> M B) : M B :=
  fun s =>
    match m s with
    | (Resolved a, s') => f a s'
    | (Rejected e, s') => (Rejected e, s')
    end.

(** [try { m } catch (e) { h e }], or [m.catch(h)]. *)
Definition catch {A} (m : M A) (h : error -> M A) : M A :=
  fun s =>
    match m s with
    | (Resolved a, s') => (Resolved a, s')
    | (Rejected e, s') => h e s'
    end.

Definition get : M (state W) := fun s => (Resolved s, s).
Definition modify (f : state W -> state W) : M unit :=
  fun s => (Resolved tt, f s).
End Monad.

Declare Scope js_scope.
Delimit Scope js_scope with js.
Notation "x <- m ;; k" := (bind m (fun x => k))
  (at level 61, m at next level, right associativity) : js_scope.
Notation "m ;; k" := (bind m (fun _ => k))
  (at level 61, right associativity) : js_scope.
Local Open Scope js_scope.

(** ** The code of [gitWorkflow.js] *)

Section Workflow.
Context {W : Type} (env : Env W).
Local Abbreviation M := (@M W).

Definition getAbsolutePath (dir : string) : string :=
  if path_isAbsolute env dir then dir else path_resolve env dir.

(** [getCmdArgs(gitDir)], [gitDir] being [undefined] or a string. *)
Definition getCmdArgs (gd : option string) : list string :=
  match gd with
  | Some d => if truthy_str d then ["--git-dir"; getAbsolutePath d] else []
  | None => []
  end.

(** [options && options.cwd ? options.cwd : process.cwd()] *)
Definition cwd_of (options : option Options) : string :=
  match options with
  | Some o =>
      match cwd o with
      | Some c => if truthy_str c then c else process_cwd env
      | None => process_cwd env
      end
  | None => process_cwd env
  end.

(** [options && options.gitDir] *)
Definition gitDir_of (options : option Options) : option string :=
  match options with
  | Some o => gitDir o
  | None => None
  end.

(** The argument vector and directory [execGit] passes to execa. *)
Definition git_argv (cmd : list string) (options : option Options) : list string :=
  getCmdArgs (gitDir_of options) ++ cmd.
Definition git_dir (options : option Options) : string :=
  getAbsolutePath (cwd_of options).

(** The trace entry of [execGit cmd options]. *)
Definition git_event (cmd : list string) (options : option Options) : event :=
  EvGit (git_argv cmd options) (git_dir options).

(** What git answers to [cmd] in world [w]. *)
Definition git_at (cmd : list string) (options : option Options) (w : W)
  : (ExecResult + CommandError) * W :=
  execa_git env (git_argv cmd options) (git_dir options) w.

Definition execGit (cmd : list string) (options : option Options) : M ExecResult :=
  fun s =>
    let ev := git_event cmd options in
    match git_at cmd options (world s) with
    | (inl res, w') => (Resolved res, record_call ev w' s)
    | (inr e, w') => (Rejected (CommandFailed e), record_call ev w' s)
    end.

Definition writeFile (path : string) (data : jsval) : M unit :=
  fun s =>
    let (r, w') := fs_writeFile env path data (world s) in
    (r, record_call (EvWriteFile path data) w' s).

Definition unlink (path : jsval) : M unit :=
  fun s =>
    let (r, w') := fs_unlink env path (world s) in
    (r, record_call (EvUnlink path) w' s).

Definition console_log (msg : string) : M unit :=
  fun s => (Resolved tt, record_call (EvConsole msg) (world s) s).

Definition name_only_args (tree : string) : list string :=
  ["diff-index"; "--name-only"; tree; "--"].

Definition getUnstagedFiles (options : option Options) : M (list string) :=
  res <- execGit ["write-tree"] options ;;
  files <- (let tree := stdout res in
            if truthy_str tree
            then r <- execGit (name_only_args tree) options ;; ret (Some r)
            else ret None (* the array [] *)) ;;
  ret (match files with
       | Some r => if truthy_str (stdout r) then split_lines (stdout r) else []
       | None => []
       end).

Definition hasUnstagedFiles (options : option Options) : M bool :=
  files <- getUnstagedFiles options ;;
  ret (0 <? length files)%nat.

Definition patch_diff_args (tree : string) : list string :=
  ["diff-index"; "--exit-code"; "--ignore-submodules"; "--binary";
   "--no-color"; "--no-ext-diff"; tree; "--"].

Definition patch_file (options : option Options) : string :=
  path_join env (cwd_of options) ".lint-staged.patch".

Definition generatePatch (options : option Options) : M jsval :=
  catch
    (res <- execGit ["write-tree"] options ;;
     (let tree := stdout res in
      if truthy_str tree
      then r <- execGit (patch_diff_args tree) options ;; ret (Some r)
      else ret None) ;;
     (* .then(() => { debug('Nothing to do...') }) *)
     ret JUndefined)
    (fun res =>
       let patch := error_stdout res in
       let filePath := patch_file options in
       writeFile filePath patch ;;
       ret (JStr filePath)).

Definition gitApply (patch : string) (options : option Options) : M ExecResult :=
  execGit ["apply"; "--whitespace=nowarn"; patch] options.

Definition gitPopWithConflicts (options : option Options) : M ExecResult :=
  execGit ["stash"] options ;;
  execGit ["stash"; "pop"; "stash@{1}"] options ;;
  execGit ["read-tree"; "-m"; "-i"; "stash"] options.

Definition writeTree (options : option Options) : M string :=
  res <- execGit ["write-tree"] options ;;
  ret (stdout res).

Definition gitStash (options : option Options) : M unit :=
  t <- writeTree options ;;
  modify (set_trees [t]) ;;
  execGit ["add"; "."] options ;;
  w <- writeTree options ;;
  modify (set_workTree (JStr w)) ;;
  s <- get ;;
  execGit ["read-tree"; nth 0 (trees s) ""] options ;;
  execGit ["checkout-index"; "-af"] options ;;
  ret tt.

(** [trees = [...trees, await writeTree(options)]]: the ledger is read
    before the command runs. *)
Definition updateStash (options : option Options) : M unit :=
  s <- get ;;
  t <- writeTree options ;;
  modify (set_trees (trees s ++ [t])).

Definition conflict_msg : string :=
  "Stashed changes conflicted with hook auto-fixes! Restoring from conflicts...".

Definition gitPop (options : option Options) : M unit :=
  s <- get ;;
  match workTree s with
  | JStr wt =>
      if negb (truthy_str wt) || (length (trees s) =? 0)%nat
      then throw (JsError "Need 2 tree-ish to be set!")
      else
        execGit ["read-tree"; wt] options ;;
        execGit ["checkout-index"; "-af"] options ;;
        (if (length (trees s) =? 1)%nat
         then execGit ["read-tree"; nth 0 (trees s) ""] options
         else execGit ["read-tree"; nth 1 (trees s) ""] options) ;;
        execGit ["checkout-index"] options ;;
        ret tt
  | JUndefined | JNull => throw (JsError "Need 2 tree-ish to be set!")
  end.

Definition cleanup (options : option Options) : M unit :=
  execGit ["stash"; "drop"] options ;;
  s <- get ;;
  unlink (patchPath s) ;;
  modify (set_patchPath JNull).

Definition gitApplyPatch (patch : string) (options : option Options) : M unit :=
  catch
    (execGit ["checkout"; "--"; "."] options ;;
     gitApply patch options ;;
     ret tt)
    (fun _ =>
       console_log conflict_msg ;;
       gitPopWithConflicts options ;;
       ret tt) ;;
  cleanup options.

(** Resolves with [null] ([None]) or with what [git stash] resolved with. *)
Definition gitStashSave (options : option Options) : M (option ExecResult) :=
  hasUnstaged <- hasUnstagedFiles options ;;
  if hasUnstaged : bool
  then
    p <- generatePatch options ;;
    modify (set_patchPath p) ;;
    r <- execGit ["stash"; "--keep-index"] options ;;
    ret (Some r)
  else ret None.

(** [if (!patchPath) throw ...]: the only truthy values of [patchPath]
    are the non-empty strings. *)
Definition gitStashPop (options : option Options) : M unit :=
  s <- get ;;
  match patchPath s with
  | JStr p =>
      if negb (truthy_str p)
      then throw (JsError "No patch found")
      else gitApplyPatch p options
  | JUndefined | JNull => throw (JsError "No patch found")
  end.

End Workflow.

(** ** Vocabulary of the specification *)

(** The two errors the module throws itself. *)
Definition no_patch : error := JsError "No patch found".
Definition need_trees : error := JsError "Need 2 tree-ish to be set!".

(** "The second-to-last ledger tree", read off the ledger from its end. *)
Definition second_to_last (ts : list string) : option string :=
  match rev ts with
  | _ :: t :: _ => Some t
  | _ => None
  end.

(** The ways the git part of patch capture can be rejected: by
    [write-tree], or by the diff against the tree it printed.  [evs] are the
    calls made up to the rejection, [w'] the world it leaves. *)
Inductive capture_rejected {W} (env : Env W) (o : option Options) (w : W)
  : CommandError -> W -> list event -> Prop :=
| rejected_by_write_tree e w1 :
    git_at env ["write-tree"] o w = (inr e, w1) ->
    capture_rejected env o w e w1 [git_event env ["write-tree"] o]
| rejected_by_diff r w1 e w2 :
    git_at env ["write-tree"] o w = (inl r, w1) ->
    truthy_str (stdout r) = true ->
    git_at env (patch_diff_args (stdout r)) o w1 = (inr e, w2) ->
    capture_rejected env o w e w2
      [git_event env ["write-tree"] o;
       git_event env (patch_diff_args (stdout r)) o].

(** The ways the diff of patch capture reports no difference: there is no
    tree to compare with, or the diff exits with status zero. *)
Inductive capture_clean {W} (env : Env W) (o : option Options) (w : W)
  : W -> list event -> Prop :=
| clean_no_tree r w1 :
    git_at env ["write-tree"] o w = (inl r, w1) ->
    truthy_str (stdout r) = false ->
    capture_clean env o w w1 [git_event env ["write-tree"] o]
| clean_no_difference r w1 r2 w2 :
    git_at env ["write-tree"] o w = (inl r, w1) ->
    truthy_str (stdout r) = true ->
    git_at env (patch_diff_args (stdout r)) o w1 = (inl r2, w2) ->
    capture_clean env o w w2
      [git_event env ["write-tree"] o;
       git_event env (patch_diff_args (stdout r)) o].

(** What conflict recovery adds to the trace: the message, then the three
    commands of [gitPopWithConflicts]. *)
Definition recovery_events {W} (env : Env W) (o : option Options) : list event :=
  [EvConsole conflict_msg;
   git_event env ["stash"] o;
   git_event env ["stash"; "pop"; "stash@{1}"] o;
   git_event env ["read-tree"; "-m"; "-i"; "stash"] o].

(** The three commands of [gitPopWithConflicts] all succeed, from world
    [w] to world [w']. *)
Definition recovery_done {W} (env : Env W) (o : option Options) (w w' : W) : Prop :=
  exists r3 w3 r4 w4 r5,
    git_at env ["stash"] o w = (inl r3, w3)
    /\ git_at env ["stash"; "pop"; "stash@{1}"] o w3 = (inl r4, w4)
    /\ git_at env ["read-tree"; "-m"; "-i"; "stash"] o w4 = (inl r5, w').

(** One of the three commands of [gitPopWithConflicts] is rejected, with
    [e], when recovery starts in world [w]. *)
Definition recovery_failed {W} (env : Env W) (o : option Options) (w : W)
    (e : CommandError) : Prop :=
  (exists w3, git_at env ["stash"] o w = (inr e, w3))
  \/ (exists r3 w3 w4,
        git_at env ["stash"] o w = (inl r3, w3)
        /\ git_at env ["stash"; "pop"; "stash@{1}"] o w3 = (inr e, w4))
  \/ (exists r3 w3 r4 w4 w5,
        git_at env ["stash"] o w = (inl r3, w3)
        /\ git_at env ["stash"; "pop"; "stash@{1}"] o w3 = (inl r4, w4)
        /\ git_at env ["read-tree"; "-m"; "-i"; "stash"] o w4 = (inr e, w5)).

(** The ways the [try]/[catch] of [gitApplyPatch] completes: the patch
    applies, or recovery runs to its end after [apply] -- or already
    [checkout] -- was rejected. *)
Inductive restored {W} (env : Env W) (o : option Options) (p : string) (w : W)
  : W -> list event -> Prop :=
| applied_cleanly r1 w1 r2 w2 :
    git_at env ["checkout"; "--"; "."] o w = (inl r1, w1) ->
    git_at env ["apply"; "--whitespace=nowarn"; p] o w1 = (inl r2, w2) ->
    restored env o p w w2
      [git_event env ["checkout"; "--"; "."] o;
       git_event env ["apply"; "--whitespace=nowarn"; p] o]
| recovered_from_apply r1 w1 e w2 w' :
    git_at env ["checkout"; "--"; "."] o w = (inl r1, w1) ->
    git_at env ["apply"; "--whitespace=nowarn"; p] o w1 = (inr e, w2) ->
    recovery_done env o w2 w' ->
    restored env o p w w'
      ([git_event env ["checkout"; "--"; "."] o;
        git_event env ["apply"; "--whitespace=nowarn"; p] o]
         ++ recovery_events env o)
| recovered_from_checkout e w1 w' :
    git_at env ["checkout"; "--"; "."] o w = (inr e, w1) ->
    recovery_done env o w1 w' ->
    restored env o p w w'
      (git_event env ["checkout"; "--"; "."] o :: recovery_events env o).

(** The tree [gitPop] reads back last: [trees[0]] of a one-entry ledger,
    [trees[1]] otherwise. *)
Definition layered_tree (ts : list string) : string :=
  if (length ts =? 1)%nat then nth 0 ts "" else nth 1 ts "".

(** A state after some further external calls: the module variables are
    untouched, the world is [w], the trace has grown by [evs]. *)
Definition after_calls {W} (evs : list event) (w : W) (s : state W) : state W :=
  mkState (patchPath s) (workTree s) (trees s) w (log s ++ evs).

(** ** What git is relied upon to do

    The code never looks at the repository itself: what a command does to
    the working tree, the index and the stash is git's own behaviour.  The
    properties that speak of the repository are therefore stated over a view of
    the world and the contract below, which says what the commands of the
    patch life cycle do when git runs at the top of the working tree and
    the patch file is not a tracked file. *)

Record RepoView (W : Type) : Type := mkRepoView {
  content : Type;                          (* tracked paths and their bytes *)
  entry : Type;                            (* one stash entry *)
  work_tree : W -> content;
  index_tree : W -> content;
  stash_list : W -> list entry;
  file_at : W -> string -> option string;  (* untracked files, by path *)
  patch_apply : string -> content -> option content
}.
Arguments content {W} _.
Arguments entry {W} _.
Arguments work_tree {W} _ _.
Arguments index_tree {W} _ _.
Arguments stash_list {W} _ _.
Arguments file_at {W} _ _ _.
Arguments patch_apply {W} _ _ _.

(** Nothing the view shows has changed. *)
Definition same_repo {W} (V : RepoView W) (w w' : W) : Prop :=
  work_tree V w' = work_tree V w
  /\ index_tree V w' = index_tree V w
  /\ stash_list V w' = stash_list V w
  /\ (forall p, file_at V w' p = file_at V w p).

Record GitContract {W} (env : Env W) (o : option Options) (V : RepoView W) : Prop :=
  mkGitContract {
  (* write-tree and diff-index only read the repository *)
  write_tree_reads : forall w r w',
    git_at env ["write-tree"] o w = (r, w') -> same_repo V w w';
  name_diff_reads : forall t w r w',
    git_at env (name_only_args t) o w = (r, w') -> same_repo V w w';
  patch_diff_reads : forall t w r w',
    git_at env (patch_diff_args t) o w = (r, w') -> same_repo V w w';
  (* exit status 1 of diff-index --exit-code: the output is the patch from
     the index, whose tree was just written, to the working tree *)
  patch_diff_meaning : forall w r w1 e w2,
    git_at env ["write-tree"] o w = (inl r, w1) ->
    git_at env (patch_diff_args (stdout r)) o w1 = (inr e, w2) ->
    exit_code e = 1%Z ->
    patch_apply V (cmd_stdout e) (index_tree V w) = Some (work_tree V w);
  (* writing and unlinking the patch file touches that file only *)
  write_patch_file : forall d w w',
    fs_writeFile env (patch_file env o) (JStr d) w = (Resolved tt, w') ->
    file_at V w' (patch_file env o) = Some d
    /\ work_tree V w' = work_tree V w
    /\ index_tree V w' = index_tree V w
    /\ stash_list V w' = stash_list V w;
  unlink_patch_file : forall w w',
    fs_unlink env (JStr (patch_file env o)) w = (Resolved tt, w') ->
    file_at V w' (patch_file env o) = None
    /\ work_tree V w' = work_tree V w
    /\ index_tree V w' = index_tree V w
    /\ stash_list V w' = stash_list V w;
  (* stash --keep-index: the working tree becomes the index, the index
     stays, untracked files stay; local changes make one new entry *)
  stash_keep_index : forall w r w',
    git_at env ["stash"; "--keep-index"] o w = (inl r, w') ->
    work_tree V w' = index_tree V w
    /\ index_tree V w' = index_tree V w
    /\ (forall p, file_at V w' p = file_at V w p)
    /\ (work_tree V w <> index_tree V w ->
        exists en, stash_list V w' = en :: stash_list V w);
  (* checkout -- . : the working tree becomes the index *)
  checkout_all : forall w r w',
    git_at env ["checkout"; "--"; "."] o w = (inl r, w') ->
    work_tree V w' = index_tree V w
    /\ index_tree V w' = index_tree V w
    /\ stash_list V w' = stash_list V w
    /\ (forall p, file_at V w' p = file_at V w p);
  (* apply: the patch read from the patch file is applied to the working
     tree *)
  apply_patch_file : forall w r w',
    git_at env ["apply"; "--whitespace=nowarn"; patch_file env o] o w = (inl r, w') ->
    (exists d, file_at V w (patch_file env o) = Some d
               /\ patch_apply V d (work_tree V w) = Some (work_tree V w'))
    /\ stash_list V w' = stash_list V w
    /\ (forall p, file_at V w' p = file_at V w p);
  (* stash drop: the newest entry goes *)
  stash_drop : forall w r w',
    git_at env ["stash"; "drop"] o w = (inl r, w') ->
    stash_list V w' = tl (stash_list V w)
    /\ work_tree V w' = work_tree V w
    /\ index_tree V w' = index_tree V w
    /\ (forall p, file_at V w' p = file_at V w p)
}.

(** What [getUnstagedFiles] can be told: there is something unstaged (the
    name-only diff prints paths), or there is not (no tree, or no path). *)
Inductive unstaged_detected {W} (env : Env W) (o : option Options) (w : W)
  : W -> list event -> Prop :=
| detected r1 w1 r2 w2 :
    git_at env ["write-tree"] o w = (inl r1, w1) ->
    truthy_str (stdout r1) = true ->
    git_at env (name_only_args (stdout r1)) o w1 = (inl r2, w2) ->
    truthy_str (stdout r2) = true ->
    unstaged_detected env o w w2
      [git_event env ["write-tree"] o;
       git_event env (name_only_args (stdout r1)) o].

Inductive nothing_unstaged {W} (env : Env W) (o : option Options) (w : W)
  : W -> list event -> Prop :=
| nothing_no_tree r1 w1 :
    git_at env ["write-tree"] o w = (inl r1, w1) ->
    truthy_str (stdout r1) = false ->
    nothing_unstaged env o w w1 [git_event env ["write-tree"] o]
| nothing_listed r1 w1 r2 w2 :
    git_at env ["write-tree"] o w = (inl r1, w1) ->
    truthy_str (stdout r1) = true ->
    git_at env (name_only_args (stdout r1)) o w1 = (inl r2, w2) ->
    truthy_str (stdout r2) = false ->
    nothing_unstaged env o w w2
      [git_event env ["write-tree"] o;
       git_event env (name_only_args (stdout r1)) o].

(** [gitStashSave] goes all the way: something unstaged is detected, the
    diff of patch capture exits non-zero with [e], the patch file is
    written, and [git stash --keep-index] succeeds with [r], leaving [w']. *)
Inductive stash_saved {W} (env : Env W) (o : option Options) (w : W)
  : CommandError -> ExecResult -> W -> list event -> Prop :=
| saved w2 evs r3 w3 e w4 w5 r6 w6 :
    unstaged_detected env o w w2 evs ->
    git_at env ["write-tree"] o w2 = (inl r3, w3) ->
    truthy_str (stdout r3) = true ->
    git_at env (patch_diff_args (stdout r3)) o w3 = (inr e, w4) ->
    fs_writeFile env (patch_file env o) (JStr (cmd_stdout e)) w4 = (Resolved tt, w5) ->
    git_at env ["stash"; "--keep-index"] o w5 = (inl r6, w6) ->
    stash_saved env o w e r6 w6
      (evs ++ [git_event env ["write-tree"] o;
               git_event env (patch_diff_args (stdout r3)) o;
               EvWriteFile (patch_file env o) (JStr (cmd_stdout e));
               git_event env ["stash"; "--keep-index"] o]).

(** A call that only reads the repository. *)
Definition is_query {W} (env : Env W) (o : option Options) (ev : event) : Prop :=
  ev = git_event env ["write-tree"] o
  \/ exists t, ev = git_event env (name_only_args t) o.

(** ** A scripted environment

    A test double for execa and fs-promise, in the way the repository's
    tests would mock them: git answers with the next reply of a script,
    whatever it is asked, and the disk is a list of files. *)

Module Script.

Record disk : Type := mkDisk {
  replies : list (ExecResult + CommandError);
  files : list (string * string)
}.

Definition ok (out : string) : ExecResult + CommandError :=
  inl (mkExecResult out "").
Definition fails (code : Z) (out : string) : ExecResult + CommandError :=
  inr (mkCommandError code out "").

Definition git (argv : list string) (dir : string) (w : disk)
  : (ExecResult + CommandError) * disk :=
  match replies w with
  | r :: rest => (r, mkDisk rest (files w))
  | [] => (fails 128 "", w)
  end.

Definition without (p : string) (fs : list (string * string)) : list (string * string) :=
  filter (fun f => negb (fst f =? p)) fs.

Definition present (p : string) (fs : list (string * string)) : bool :=
  existsb (fun f => fst f =? p) fs.

Definition writeFile (p : string) (data : jsval) (w : disk) : outcome unit * disk :=
  match data with
  | JStr d => (Resolved tt, mkDisk (replies w) ((p, d) :: without p (files w)))
  | JUndefined | JNull => (Rejected (FsError "ERR_INVALID_ARG_TYPE"), w)
  end.

Definition unlink (p : jsval) (w : disk) : outcome unit * disk :=
  match p with
  | JStr f =>
      if present f (files w)
      then (Resolved tt, mkDisk (replies w) (without f (files w)))
      else (Rejected (FsError "ENOENT"), w)
  | JUndefined | JNull => (Rejected (FsError "ERR_INVALID_ARG_TYPE"), w)
  end.

Definition env : Env disk :=
  mkEnv disk "/repo"
    (fun p => String.prefix "/" p)
    (fun p => "/repo/" ++ p)
    (fun a b => a ++ "/" ++ b)
    git writeFile unlink.

End Script.

(** ** A one-file repository

    A small git to run the contract against: one tracked file, whose
    content is a string; a patch is the content it leads to. *)

Module Toy.

Record repo : Type := mkRepo {
  index : string;                       (* staged content of the file *)
  work : string;                        (* its content on disk *)
  stash : list (string * string);       (* (index, working tree) entries *)
  untracked : list (string * string)
}.

Definition ok (out : string) : ExecResult + CommandError :=
  inl (mkExecResult out "").
Definition fails (code : Z) (err : string) : ExecResult + CommandError :=
  inr (mkCommandError code "" err).

Definition lookup (p : string) (fs : list (string * string)) : option string :=
  match find (fun f => fst f =? p) fs with
  | Some f => Some (snd f)
  | None => None
  end.

Definition without (p : string) (fs : list (string * string)) : list (string * string) :=
  filter (fun f => negb (fst f =? p)) fs.

Definition unknown (w : repo) : (ExecResult + CommandError) * repo :=
  (fails 129 "usage: git", w).

Definition git (argv : list string) (dir : string) (w : repo)
  : (ExecResult + CommandError) * repo :=
  match argv with
  | [c] =>
      if c =? "write-tree" then (ok ("tree:" ++ index w), w) else unknown w
  | [c; a] =>
      if (c =? "stash") && (a =? "--keep-index") then
        if work w =? index w then (ok "No local changes to save", w)
        else (ok "Saved working directory and index state",
              mkRepo (index w) (index w) ((index w, work w) :: stash w) (untracked w))
      else if (c =? "stash") && (a =? "drop") then
        match stash w with
        | [] => (fails 1 "No stash entries found.", w)
        | _ :: older => (ok "Dropped refs/stash@{0}",
                         mkRepo (index w) (work w) older (untracked w))
        end
      else unknown w
  | [c; a; b] =>
      if (c =? "checkout") && (a =? "--") && (b =? ".") then
        (ok "", mkRepo (index w) (index w) (stash w) (untracked w))
      else if (c =? "apply") && (a =? "--whitespace=nowarn") then
        match lookup b (untracked w) with
        | Some d => (ok "", mkRepo (index w) d (stash w) (untracked w))
        | None => (fails 128 "error: can't open patch", w)
        end
      else unknown w
  | [c; a; t; d] =>
      if (c =? "diff-index") && (a =? "--name-only") && (d =? "--") then
        (ok (if work w =? index w then "" else "a.txt"), w)
      else unknown w
  | [c; a1; a2; a3; a4; a5; t; d] =>
      if (c =? "diff-index") && (a1 =? "--exit-code") && (a2 =? "--ignore-submodules")
         && (a3 =? "--binary") && (a4 =? "--no-color") && (a5 =? "--no-ext-diff")
         && (d =? "--")
      then if work w =? index w then (ok "", w)
           else (inr (mkCommandError 1 (work w) ""), w)
      else unknown w
  | _ => unknown w
  end.

Definition writeFile (p : string) (data : jsval) (w : repo) : outcome unit * repo :=
  match data with
  | JStr d => (Resolved tt,
               mkRepo (index w) (work w) (stash w) ((p, d) :: without p (untracked w)))
  | JUndefined | JNull => (Rejected (FsError "ERR_INVALID_ARG_TYPE"), w)
  end.

Definition unlink (p : jsval) (w : repo) : outcome unit * repo :=
  match p with
  | JStr f =>
      match lookup f (untracked w) with
      | Some _ => (Resolved tt,
                   mkRepo (index w) (work w) (stash w) (without f (untracked w)))
      | None => (Rejected (FsError "ENOENT"), w)
      end
  | JUndefined | JNull => (Rejected (FsError "ERR_INVALID_ARG_TYPE"), w)
  end.

Definition env : Env repo :=
  mkEnv repo "/repo"
    (fun p => String.prefix "/" p)
    (fun p => "/repo/" ++ p)
    (fun a b => a ++ "/" ++ b)
    git writeFile unlink.

Definition view : RepoView repo :=
  mkRepoView repo string (string * string)
    work index stash
    (fun w p => lookup p (untracked w))
    (fun patch _ => Some patch).

(** [a.txt] is staged as v1 and edited, unstaged, to v2. *)
Definition edited : repo := mkRepo "v1" "v2" [] [].

(** [a.txt] is staged as v1 and not touched since. *)
Definition pristine : repo := mkRepo "v1" "v1" [] [].

End Toy.

(** ** A one-file repository with a history

    A second, closer git: one tracked file [a.txt] with its committed,
    staged and on-disk content, a submodule [vendor/lib] that may hold
    modified content, an index whose stat information may be stale, a stash
    of (base, index, working tree) entries.  A patch names the content it
    applies to and the content it leads to, and applies to nothing else. *)

Module Git1.

Record repo : Type := mkRepo {
  head : string;                        (* committed content of a.txt *)
  index : string;                       (* staged content *)
  work : string;                        (* content on disk *)
  stat_dirty : bool;                    (* a.txt touched, content unchanged *)
  sub_dirty : bool;                     (* vendor/lib has modified content *)
  stash : list (string * string * string);
  untracked : list (string * string)
}.

Definition ok (out : string) : ExecResult + CommandError :=
  inl (mkExecResult out "").
Definition fails (code : Z) (err : string) : ExecResult + CommandError :=
  inr (mkCommandError code "" err).
Definition unknown (w : repo) : (ExecResult + CommandError) * repo :=
  (fails 129 "usage: git", w).

(** The patch from [b] to [t]: the length of [b] in strokes, a colon, [b],
    then [t]. *)
Fixpoint tally (n : nat) : string :=
  match n with
  | O => ":"
  | S k => String "|" (tally k)
  end.

Definition encode (b t : string) : string := tally (String.length b) ++ b ++ t.

Fixpoint untally (s : string) : option (nat * string) :=
  match s with
  | EmptyString => None
  | String c rest =>
      if Ascii.eqb c ":" then Some (O, rest)
      else if Ascii.eqb c "|" then
        match untally rest with
        | Some (n, r) => Some (S n, r)
        | None => None
        end
      else None
  end.

Fixpoint split_at (n : nat) (s : string) : option (string * string) :=
  match n with
  | O => Some (EmptyString, s)
  | S k =>
      match s with
      | EmptyString => None
      | String c rest =>
          match split_at k rest with
          | Some (a, b) => Some (String c a, b)
          | None => None
          end
      end
  end.

Definition decode (p : string) : option (string * string) :=
  match untally p with
  | Some (n, rest) => split_at n rest
  | None => None
  end.

(** [git apply]: the patch applies to the content it was made from. *)
Definition apply_to (p t : string) : option string :=
  match decode p with
  | Some (b, target) => if b =? t then Some target else None
  | None => None
  end.

(** What the index-against-disk diff sees of [a.txt]: a change of content,
    or stale stat information. *)
Definition file_differs (w : repo) : bool :=
  negb (work w =? index w) || stat_dirty w.

(** Output of [diff-index --name-only]: submodules are not ignored. *)
Definition names (w : repo) : string :=
  match file_differs w, sub_dirty w with
  | true, true => "a.txt" ++ String newline "vendor/lib"
  | true, false => "a.txt"
  | false, true => "vendor/lib"
  | false, false => ""
  end.

(** What [git stash] finds to save: it refreshes the index and ignores
    submodules. *)
Definition local_changes (w : repo) : bool :=
  negb (work w =? index w) || negb (index w =? head w).

Definition conflict_text (ours theirs : string) : string :=
  "<<<<<<< Updated upstream" ++ String newline ours ++
  String newline "=======" ++ String newline theirs ++
  String newline ">>>>>>> Stashed changes".

Definition git (argv : list string) (dir : string) (w : repo)
  : (ExecResult + CommandError) * repo :=
  match argv with
  | [c] =>
      if c =? "write-tree" then (ok ("tree:" ++ index w), w)
      else if c =? "stash" then
        if local_changes w
        then (ok "Saved working directory and index state",
              mkRepo (head w) (head w) (head w) false (sub_dirty w)
                ((head w, index w, work w) :: stash w) (untracked w))
        else (ok "No local changes to save",
              mkRepo (head w) (index w) (work w) false (sub_dirty w)
                (stash w) (untracked w))
      else unknown w
  | [c; a] =>
      if (c =? "stash") && (a =? "--keep-index") then
        if local_changes w
        then (ok "Saved working directory and index state",
              mkRepo (head w) (index w) (index w) false (sub_dirty w)
                ((head w, index w, work w) :: stash w) (untracked w))
        else (ok "No local changes to save",
              mkRepo (head w) (index w) (work w) false (sub_dirty w)
                (stash w) (untracked w))
      else if (c =? "stash") && (a =? "drop") then
        match stash w with
        | [] => (fails 1 "No stash entries found.", w)
        | _ :: older =>
            (ok "Dropped refs/stash@{0}",
             mkRepo (head w) (index w) (work w) (stat_dirty w) (sub_dirty w)
               older (untracked w))
        end
      else unknown w
  | [c; a; b] =>
      if (c =? "checkout") && (a =? "--") && (b =? ".") then
        (ok "", mkRepo (head w) (index w) (index w) false (sub_dirty w)
                  (stash w) (untracked w))
      else if (c =? "apply") && (a =? "--whitespace=nowarn") then
        match Toy.lookup b (untracked w) with
        | Some p =>
            match apply_to p (work w) with
            | Some t => (ok "", mkRepo (head w) (index w) t (stat_dirty w)
                                  (sub_dirty w) (stash w) (untracked w))
            | None => (fails 1 "error: patch failed: a.txt:1", w)
            end
        | None => (fails 128 "error: can't open patch", w)
        end
      else if (c =? "stash") && (a =? "pop") && (b =? "stash@{1}") then
        match stash w with
        | newest :: (base, _, theirs) :: older =>
            if work w =? base then
              (ok "Dropped stash@{1}",
               mkRepo (head w) (index w) theirs (stat_dirty w) (sub_dirty w)
                 (newest :: older) (untracked w))
            else if (work w =? theirs) || (theirs =? base) then
              (ok "Dropped stash@{1}",
               mkRepo (head w) (index w) (work w) (stat_dirty w) (sub_dirty w)
                 (newest :: older) (untracked w))
            else
              (fails 1 "CONFLICT (content): Merge conflict in a.txt",
               mkRepo (head w) (index w) (conflict_text (work w) theirs)
                 (stat_dirty w) (sub_dirty w) (stash w) (untracked w))
        | _ => (fails 1 "error: stash@{1} is not a valid reference", w)
        end
      else unknown w
  | [c; a; t; d] =>
      if (c =? "diff-index") && (a =? "--name-only") && (d =? "--") then
        (ok (names w), w)
      else if (c =? "read-tree") && (a =? "-m") && (t =? "-i") && (d =? "stash") then
        match stash w with
        | (_, _, tree) :: _ =>
            (ok "", mkRepo (head w) tree (work w) (stat_dirty w) (sub_dirty w)
                      (stash w) (untracked w))
        | [] => (fails 128 "fatal: Not a valid object name stash", w)
        end
      else unknown w
  | [c; a1; a2; a3; a4; a5; t; d] =>
      if (c =? "diff-index") && (a1 =? "--exit-code") && (a2 =? "--ignore-submodules")
         && (a3 =? "--binary") && (a4 =? "--no-color") && (a5 =? "--no-ext-diff")
         && (d =? "--")
      then if file_differs w
           then (inr (mkCommandError 1 (encode (index w) (work w)) ""), w)
           else (ok "", w)
      else unknown w
  | _ => unknown w
  end.

Definition writeFile (p : string) (data : jsval) (w : repo) : outcome unit * repo :=
  match data with
  | JStr d => (Resolved tt,
               mkRepo (head w) (index w) (work w) (stat_dirty w) (sub_dirty w)
                 (stash w) ((p, d) :: Toy.without p (untracked w)))
  | JUndefined | JNull => (Rejected (FsError "ERR_INVALID_ARG_TYPE"), w)
  end.

Definition unlink (p : jsval) (w : repo) : outcome unit * repo :=
  match p with
  | JStr f =>
      match Toy.lookup f (untracked w) with
      | Some _ => (Resolved tt,
                   mkRepo (head w) (index w) (work w) (stat_dirty w) (sub_dirty w)
                     (stash w) (Toy.without f (untracked w)))
      | None => (Rejected (FsError "ENOENT"), w)
      end
  | JUndefined | JNull => (Rejected (FsError "ERR_INVALID_ARG_TYPE"), w)
  end.

Definition env : Env repo :=
  mkEnv repo "/repo"
    (fun p => String.prefix "/" p)
    (fun p => "/repo/" ++ p)
    (fun a b => a ++ "/" ++ b)
    git writeFile unlink.

Definition view : RepoView repo :=
  mkRepoView repo string (string * string * string)
    work index stash
    (fun w p => Toy.lookup p (untracked w))
    apply_to.

(** A conflict marker stands in the content. *)
Definition has_markers (content : string) : bool :=
  match String.index 0 "<<<<<<<" content with
  | Some _ => true
  | None => false
  end.

(** What the hook and the [git add] after it do: the fixed content is on
    disk and staged. *)
Definition hook_fix (fixed : string) (w : repo) : repo :=
  mkRepo (head w) fixed fixed false (sub_dirty w) (stash w) (untracked w).

(** [a.txt] committed as v0, staged as v1, edited on disk to v2. *)
Definition edited : repo := mkRepo "v0" "v1" "v2" false false [] [].

(** [a.txt] committed as v0 and staged as v1, nothing else touched in it;
    the submodule holds modified content. *)
Definition submodule_edited : repo := mkRepo "v0" "v1" "v1" false true [] [].

(** Nothing staged, nothing edited; the submodule holds modified
    content. *)
Definition submodule_only : repo := mkRepo "v1" "v1" "v1" false true [] [].

(** Nothing edited: [a.txt] was only touched, so that the stat information
    of the index is stale. *)
Definition touched : repo := mkRepo "v1" "v1" "v1" true false [] [].

End Git1.

(** The world changed from outside the module, between two of its calls. *)
Definition outside {W} (f : W -> W) (s : state W) : state W :=
  mkState (patchPath s) (workTree s) (trees s) (f (world s)) (log s).

(** ** Further vocabulary *)

(** Two [options] values under which [execGit] builds the same call: the
    same effective working directory, the same [--git-dir] arguments. *)
Definition same_call {W} (env : Env W) (o1 o2 : option Options) : Prop :=
  cwd_of env o1 = cwd_of env o2
  /\ getCmdArgs env (gitDir_of o1) = getCmdArgs env (gitDir_of o2).

(** The calls of a complete [gitStash], [t0] being the tree of the index. *)
Definition gitStash_events {W} (env : Env W) (o : option Options) (t0 : string)
  : list event :=
  [git_event env ["write-tree"] o;
   git_event env ["add"; "."] o;
   git_event env ["write-tree"] o;
   git_event env ["read-tree"; t0] o;
   git_event env ["checkout-index"; "-af"] o].

(** The calls of a complete [gitPop]: [wt] is the working-copy tree, [t]
    the ledger tree read back. *)
Definition gitPop_events {W} (env : Env W) (o : option Options) (wt t : string)
  : list event :=
  [git_event env ["read-tree"; wt] o;
   git_event env ["checkout-index"; "-af"] o;
   git_event env ["read-tree"; t] o;
   git_event env ["checkout-index"] o].

(** ** Scripted scenarios *)

(** The index differs from the working tree: the diff exits with 1. *)
Definition capture_disk : Script.disk :=
  Script.mkDisk
    [Script.ok "4b825dc642cb6eb9a060e54bf8d69288fbee4904";
     Script.fails 1 "diff --git a/a.txt b/a.txt"]
    [].

(** [write-tree] itself fails (status 128, nothing on standard output). *)
Definition broken_index_disk : Script.disk :=
  Script.mkDisk [Script.fails 128 ""] [].

Definition patch_path : string := "/repo/.lint-staged.patch".

(** A patch is remembered and on disk; git answers as scripted. *)
Definition stashed (replies : list (ExecResult + CommandError)) : state Script.disk :=
  mkState (JStr patch_path) JNull []
    (Script.mkDisk replies [(patch_path, "diff --git a/a.txt b/a.txt")]) [].

(** A ledger session: [W] is set, the ledger is [ts], every command of
    [gitPop] succeeds. *)
Definition ledger_session (ts : list string) : state Script.disk :=
  mkState JUndefined (JStr "W") ts
    (Script.mkDisk [Script.ok ""; Script.ok ""; Script.ok ""; Script.ok ""] []) [].

(** A session as the module itself builds it: [gitStash] (the index is
    tree T0, the working copy tree W), then one [updateStash] (tree T1).
    The four remaining replies are for [gitPop]. *)
Definition begun_disk : Script.disk :=
  Script.mkDisk
    [Script.ok "T0"; Script.ok ""; Script.ok "W"; Script.ok ""; Script.ok "";
     Script.ok "T1";
     Script.ok ""; Script.ok ""; Script.ok ""; Script.ok ""] [].

Definition advanced_session : state Script.disk :=
  snd (updateStash Script.env None
         (snd (gitStash Script.env None (initial_state begun_disk)))).

(** ** Further scenarios *)

(** The name-only diff prints two paths. *)
Definition two_paths : string := "a.txt" ++ String newline "b.txt".
Definition two_paths_disk : Script.disk :=
  Script.mkDisk [Script.ok "T"; Script.ok two_paths] [].

(** The scripted environment on a disk that cannot be written to. *)
Definition readonly_env : Env Script.disk :=
  mkEnv Script.disk "/repo"
    (fun p => String.prefix "/" p)
    (fun p => "/repo/" ++ p)
    (fun a b => a ++ "/" ++ b)
    Script.git
    (fun _ _ w => (Rejected (FsError "EACCES"), w))
    Script.unlink.

(** Something unstaged is detected and captured; [replies] are left for
    what follows. *)
Definition detected_then (replies : list (ExecResult + CommandError)) : Script.disk :=
  Script.mkDisk
    ([Script.ok "T"; Script.ok "a.txt"; Script.ok "T";
      Script.fails 1 "diff --git a/a.txt b/a.txt"] ++ replies) [].

(** The name-only diff lists a path, the diff of patch capture (which
    ignores submodules) reports nothing, [git stash] succeeds. *)
Definition submodule_disk : Script.disk :=
  Script.mkDisk
    [Script.ok "T"; Script.ok "vendor/lib"; Script.ok "T"; Script.ok "";
     Script.ok "No local changes to save"] [].

(** A patch path is remembered but the file is no longer there. *)
Definition patch_file_lost : state Script.disk :=
  mkState (JStr patch_path) JNull []
    (Script.mkDisk [Script.ok "Dropped refs/stash@{0}"] []) [].

(** [git add .] fails after the index tree was written. *)
Definition add_fails_disk : Script.disk :=
  Script.mkDisk [Script.ok "T0"; Script.fails 128 ""] [].

(** A stale session: tree W and the ledger [T9] are left from before. *)
Definition stale_ledger (w : Script.disk) : state Script.disk :=
  mkState JUndefined (JStr "W9") ["T9"; "T8"] w [].

(** [gitStash] and [gitPop] with nothing in between. *)
Definition begin_end_disk : Script.disk :=
  Script.mkDisk
    [Script.ok "T0"; Script.ok ""; Script.ok "W"; Script.ok ""; Script.ok "";
     Script.ok ""; Script.ok ""; Script.ok ""; Script.ok ""] [].

(** Options that are present but empty. *)
Definition empty_options : option Options := Some (mkOptions (Some "") (Some "")).

(** * Facts *)

(** ** Running the monad *)

Section Stepping.
Context {W : Type} (env : Env W).
Local Abbreviation M := (@M W).

Lemma bind_resolved {A B} (m : M A) (f : A -> M B) s a s' :
  m s = (Resolved a, s') -> bind m f s = f a s'.
Proof. intros H. unfold bind. now rewrite H. Qed.

Lemma bind_rejected {A B} (m : M A) (f : A -> M B) s e s' :
  m s = (Rejected e, s') -> bind m f s = (Rejected e, s').
Proof. intros H. unfold bind. now rewrite H. Qed.

Lemma catch_resolved {A} (m : M A) (h : error -> M A) s a s' :
  m s = (Resolved a, s') -> catch m h s = (Resolved a, s').
Proof. intros H. unfold catch. now rewrite H. Qed.

Lemma catch_rejected {A} (m : M A) (h : error -> M A) s e s' :
  m s = (Rejected e, s') -> catch m h s = h e s'.
Proof. intros H. unfold catch. now rewrite H. Qed.

Lemma execGit_resolved cmd o s r w' :
  git_at env cmd o (world s) = (inl r, w') ->
  execGit env cmd o s = (Resolved r, record_call (git_event env cmd o) w' s).
Proof. intros H. unfold execGit. now rewrite H. Qed.

Lemma execGit_rejected cmd o s e w' :
  git_at env cmd o (world s) = (inr e, w') ->
  execGit env cmd o s = (Rejected (CommandFailed e), record_call (git_event env cmd o) w' s).
Proof. intros H. unfold execGit. now rewrite H. Qed.

Lemma writeFile_run p d s r w' :
  fs_writeFile env p d (world s) = (r, w') ->
  writeFile env p d s = (r, record_call (EvWriteFile p d) w' s).
Proof. intros H. unfold writeFile. now rewrite H. Qed.

Lemma unlink_run p s r w' :
  fs_unlink env p (world s) = (r, w') ->
  unlink env p s = (r, record_call (EvUnlink p) w' s).
Proof. intros H. unfold unlink. now rewrite H. Qed.

Lemma truthy_JStr v :
  truthy v = true <-> exists p, v = JStr p /\ p <> "".
Proof.
  destruct v as [| |p]; simpl; split;
    try discriminate; try (intros (q & Hq & _); discriminate).
  - unfold truthy_str. destruct (String.eqb_spec p ""); simpl; try discriminate.
    intros _. now exists p.
  - intros (q & Hq & Hne). injection Hq as ->. unfold truthy_str.
    destruct (String.eqb_spec q ""); [contradiction | reflexivity].
Qed.

End Stepping.

(** ** The embedding runs *)

Example getCmdArgs_relative :
  getCmdArgs Script.env (Some ".git") = ["--git-dir"; "/repo/.git"].
Proof. reflexivity. Qed.

Example getCmdArgs_empty : getCmdArgs Script.env (Some "") = [].
Proof. reflexivity. Qed.

Example execGit_argv :
  git_event Script.env ["write-tree"] (Some (mkOptions (Some "sub") (Some "/x/.git")))
  = EvGit ["--git-dir"; "/x/.git"; "write-tree"] "/repo/sub".
Proof. reflexivity. Qed.

Example split_lines_two :
  split_lines (String "a" (String newline (String "b" EmptyString))) = ["a"; "b"].
Proof. reflexivity. Qed.

Example getUnstagedFiles_edited :
  fst (getUnstagedFiles Toy.env None (initial_state Toy.edited)) = Resolved ["a.txt"].
Proof. reflexivity. Qed.

Example hasUnstagedFiles_pristine :
  fst (hasUnstagedFiles Toy.env None (initial_state Toy.pristine)) = Resolved false.
Proof. reflexivity. Qed.

Example gitStash_then_updateStash :
  workTree advanced_session = JStr "W" /\ trees advanced_session = ["T0"; "T1"].
Proof. split; reflexivity. Qed.

(** Unfolding the monad and the primitive calls, and reading the fields of
    an updated state. *)
Ltac js_unfold :=
  cbv beta iota zeta delta
    [bind catch get modify ret throw execGit writeFile unlink console_log
     gitApply writeTree].
Ltac js_simpl :=
  cbn [world record_call patchPath workTree trees log
       set_patchPath set_workTree set_trees fst snd].

(** ** The patch life cycle: [gitStashPop] and [cleanup] *)

Section Lifecycle.
Context {W : Type} (env : Env W).

Lemma gitStashPop_falsy o (s : state W) :
  truthy (patchPath s) = false ->
  gitStashPop env o s = (Rejected no_patch, s).
Proof.
  intros H. unfold gitStashPop, bind, get.
  destruct (patchPath s) as [| |p]; try reflexivity.
  simpl in H. now rewrite H.
Qed.

Lemma gitStashPop_truthy o (s : state W) p :
  patchPath s = JStr p -> truthy_str p = true ->
  gitStashPop env o s = gitApplyPatch env p o s.
Proof.
  intros Hp Ht. unfold gitStashPop, bind, get. now rewrite Hp, Ht.
Qed.

(** [cleanup] when its first command, [git stash drop], exits non-zero. *)
Lemma cleanup_drop_rejected o (s : state W) e w' :
  git_at env ["stash"; "drop"] o (world s) = (inr e, w') ->
  cleanup env o s =
    (Rejected (CommandFailed e), record_call (git_event env ["stash"; "drop"] o) w' s).
Proof.
  intros H. unfold cleanup.
  now rewrite (bind_rejected _ _ _ _ _ (execGit_rejected env _ _ _ _ _ H)).
Qed.

(** [cleanup] when both of its calls succeed. *)
Lemma cleanup_resolved o (s : state W) r w1 w2 :
  git_at env ["stash"; "drop"] o (world s) = (inl r, w1) ->
  fs_unlink env (patchPath s) w1 = (Resolved tt, w2) ->
  cleanup env o s =
    (Resolved tt,
     set_patchPath JNull
       (record_call (EvUnlink (patchPath s)) w2
          (record_call (git_event env ["stash"; "drop"] o) w1 s))).
Proof.
  intros Hd Hu. unfold cleanup. js_unfold.
  rewrite Hd. js_simpl. rewrite Hu. reflexivity.
Qed.

(** Whenever [cleanup] resolves, the remembered path is [null]. *)
Lemma cleanup_clears o (s s' : state W) u :
  cleanup env o s = (Resolved u, s') -> patchPath s' = JNull.
Proof.
  unfold cleanup, bind, get, modify, execGit, unlink.
  destruct (git_at env ["stash"; "drop"] o (world s)) as [[r|e] w1]; try discriminate.
  cbn [world record_call patchPath].
  destruct (fs_unlink env (patchPath s) w1) as [[[]|e] w2]; try discriminate.
  intros H. injection H as _ <-. reflexivity.
Qed.

End Lifecycle.

(** ** Patch capture: [generatePatch] *)

Section Capture.
Context {W : Type} (env : Env W).

Lemma generatePatch_clean o (s : state W) w' evs :
  capture_clean env o (world s) w' evs ->
  generatePatch env o s = (Resolved JUndefined, after_calls evs w' s).
Proof.
  intros H. unfold generatePatch. js_unfold.
  destruct H as [r w1 Ht Hf | r w1 r2 w2 Ht Htr Hd].
  - rewrite Ht, Hf. reflexivity.
  - rewrite Ht, Htr. js_simpl. rewrite Hd.
    unfold after_calls, record_call. js_simpl.
    now rewrite <- app_assoc.
Qed.

Lemma generatePatch_rejected o (s : state W) e w' evs r w'' :
  capture_rejected env o (world s) e w' evs ->
  fs_writeFile env (patch_file env o) (JStr (cmd_stdout e)) w' = (r, w'') ->
  generatePatch env o s =
    (match r with
     | Resolved _ => Resolved (JStr (patch_file env o))
     | Rejected x => Rejected x
     end,
     after_calls (evs ++ [EvWriteFile (patch_file env o) (JStr (cmd_stdout e))]) w'' s).
Proof.
  intros H Hw. unfold generatePatch. js_unfold.
  destruct H as [e w1 Ht | r0 w1 e w2 Ht Htr Hd].
  - rewrite Ht. js_simpl. cbn [error_stdout]. rewrite Hw.
    unfold after_calls, record_call. js_simpl.
    rewrite <- app_assoc. now destruct r.
  - rewrite Ht, Htr. js_simpl. rewrite Hd. js_simpl. cbn [error_stdout].
    rewrite Hw. unfold after_calls, record_call. js_simpl.
    rewrite <- !app_assoc. now destruct r.
Qed.

End Capture.

Section CaptureProperties.
Context {W : Type} (env : Env W).

(** C8, as the code has it.  Let [c] be [options.cwd] when it is given and
    not empty, and [process.cwd()] otherwise.  Patch capture runs
    [git write-tree] and, when a tree is printed, [git diff-index
    --exit-code --ignore-submodules --binary --no-color --no-ext-diff <tree>
    --], both in the absolute form of [c] and after the [--git-dir]
    arguments.  When no tree is printed, or the diff exits with zero, it
    has called nothing but git and resolves with [undefined] -- not with
    [null].  When the diff exits non-zero, its standard output is handed as
    it is to [writeFile] at [path.join(c, '.lint-staged.patch')], and that
    path is the result. *)
Theorem generatePatch_capture o (s : state W) :
  let c := match o with
           | Some opts =>
               match cwd opts with
               | Some d => if negb (d =? "") then d else process_cwd env
               | None => process_cwd env
               end
           | None => process_cwd env
           end in
  let dir := if path_isAbsolute env c then c else path_resolve env c in
  let pre := match o with
             | Some opts =>
                 match gitDir opts with
                 | Some d =>
                     if negb (d =? "")
                     then ["--git-dir";
                           if path_isAbsolute env d then d else path_resolve env d]
                     else []
                 | None => []
                 end
             | None => []
             end in
  let diff := fun t => ["diff-index"; "--exit-code"; "--ignore-submodules";
                        "--binary"; "--no-color"; "--no-ext-diff"; t; "--"] in
  let file := path_join env c ".lint-staged.patch" in
  (forall r w1,
      execa_git env (pre ++ ["write-tree"]) dir (world s) = (inl r, w1) ->
      stdout r = "" ->
      generatePatch env o s =
        (Resolved JUndefined,
         mkState (patchPath s) (workTree s) (trees s) w1
           (log s ++ [EvGit (pre ++ ["write-tree"]) dir])))
  /\
  (forall r w1 r2 w2,
      execa_git env (pre ++ ["write-tree"]) dir (world s) = (inl r, w1) ->
      stdout r <> "" ->
      execa_git env (pre ++ diff (stdout r)) dir w1 = (inl r2, w2) ->
      generatePatch env o s =
        (Resolved JUndefined,
         mkState (patchPath s) (workTree s) (trees s) w2
           (log s ++ [EvGit (pre ++ ["write-tree"]) dir;
                      EvGit (pre ++ diff (stdout r)) dir])))
  /\
  (forall r w1 e w2 w3,
      execa_git env (pre ++ ["write-tree"]) dir (world s) = (inl r, w1) ->
      stdout r <> "" ->
      execa_git env (pre ++ diff (stdout r)) dir w1 = (inr e, w2) ->
      fs_writeFile env file (JStr (cmd_stdout e)) w2 = (Resolved tt, w3) ->
      generatePatch env o s =
        (Resolved (JStr file),
         mkState (patchPath s) (workTree s) (trees s) w3
           (log s ++ [EvGit (pre ++ ["write-tree"]) dir;
                      EvGit (pre ++ diff (stdout r)) dir;
                      EvWriteFile file (JStr (cmd_stdout e))]))).
Proof.
  intros c dir pre diff file.
  assert (Hc : c = cwd_of env o) by reflexivity.
  assert (Hdir : dir = git_dir env o) by reflexivity.
  assert (Hpre : pre = getCmdArgs env (gitDir_of o))
    by (destruct o as [[oc [d|]]|]; reflexivity).
  assert (Htruthy : forall x, x <> "" -> truthy_str x = true).
  { intros x Hx. unfold truthy_str. now destruct (String.eqb_spec x ""). }
  assert (Hgit : forall args w,
             execa_git env (pre ++ args) dir w = git_at env args o w)
    by (intros; unfold git_at, git_argv; now rewrite Hpre, Hdir).
  assert (Hev : forall args, EvGit (pre ++ args) dir = git_event env args o)
    by (intros; unfold git_event, git_argv; now rewrite Hpre, Hdir).
  repeat split.
  - intros r w1 Ht He. rewrite Hgit in Ht. rewrite Hev.
    apply (generatePatch_clean env o s w1 _
             (clean_no_tree env o _ r w1 Ht ltac:(now rewrite He))).
  - intros r w1 r2 w2 Ht Hne Hd. rewrite Hgit in Ht, Hd. rewrite !Hev.
    apply (generatePatch_clean env o s w2 _
             (clean_no_difference env o _ r w1 r2 w2 Ht (Htruthy _ Hne) Hd)).
  - intros r w1 e w2 w3 Ht Hne Hd Hw. rewrite Hgit in Ht, Hd. rewrite !Hev.
    now rewrite (generatePatch_rejected env o s e w2 _ _ w3
                   (rejected_by_diff env o _ r w1 e w2 Ht (Htruthy _ Hne) Hd) Hw).
Qed.

(** C6, as the code has it.  Every [CommandError] git raises during
    capture -- from [write-tree] or from the diff, whatever its exit status
    and output -- is caught and converted in the same way: its standard
    output is written to the patch file and the path is the result.  Only a
    rejection of that write reaches the caller: whenever [generatePatch]
    rejects, its last call was the [writeFile] and the rejection is the
    one [writeFile] gave. *)
Theorem generatePatch_converts_every_rejection o (s : state W) :
  (forall e w' evs r w'',
      capture_rejected env o (world s) e w' evs ->
      fs_writeFile env (patch_file env o) (JStr (cmd_stdout e)) w' = (r, w'') ->
      generatePatch env o s =
        (match r with
         | Resolved _ => Resolved (JStr (patch_file env o))
         | Rejected x => Rejected x
         end,
         after_calls
           (evs ++ [EvWriteFile (patch_file env o) (JStr (cmd_stdout e))]) w'' s))
  /\
  (forall x s',
      generatePatch env o s = (Rejected x, s') ->
      exists d w evs,
        fst (fs_writeFile env (patch_file env o) d w) = Rejected x
        /\ log s' = (log s ++ evs ++ [EvWriteFile (patch_file env o) d])%list).
Proof.
  split; [intros e w' evs r w''; apply generatePatch_rejected|].
  intros x s'. unfold generatePatch. js_unfold.
  destruct (git_at env ["write-tree"] o (world s)) as [[r|e] w1] eqn:Ht; js_simpl.
  - destruct (truthy_str (stdout r)); [|discriminate]. js_simpl.
    destruct (git_at env (patch_diff_args (stdout r)) o w1) as [[r2|e] w2] eqn:Hd;
      js_simpl; [discriminate|].
    destruct (fs_writeFile env (patch_file env o) (error_stdout (CommandFailed e)) w2)
      as [[u|y] w3] eqn:Hw; [discriminate|].
    intros H. injection H as <- <-.
    exists (error_stdout (CommandFailed e)), w2,
      [git_event env ["write-tree"] o; git_event env (patch_diff_args (stdout r)) o].
    rewrite Hw. split; [reflexivity|]. js_simpl. now rewrite <- !app_assoc.
  - destruct (fs_writeFile env (patch_file env o) (error_stdout (CommandFailed e)) w1)
      as [[u|y] w3] eqn:Hw; [discriminate|].
    intros H. injection H as <- <-.
    exists (error_stdout (CommandFailed e)), w1, [git_event env ["write-tree"] o].
    rewrite Hw. split; [reflexivity|]. js_simpl. now rewrite <- !app_assoc.
Qed.

End CaptureProperties.

Lemma generatePatch_capture_witness :
  generatePatch Script.env (Some (mkOptions (Some "work") (Some ".git")))
    (initial_state capture_disk) =
    (Resolved (JStr "work/.lint-staged.patch"),
     mkState JUndefined JNull []
       (Script.mkDisk [] [("work/.lint-staged.patch", "diff --git a/a.txt b/a.txt")])
       [EvGit ["--git-dir"; "/repo/.git"; "write-tree"] "/repo/work";
        EvGit ["--git-dir"; "/repo/.git"; "diff-index"; "--exit-code";
               "--ignore-submodules"; "--binary"; "--no-color"; "--no-ext-diff";
               "4b825dc642cb6eb9a060e54bf8d69288fbee4904"; "--"] "/repo/work";
        EvWriteFile "work/.lint-staged.patch" (JStr "diff --git a/a.txt b/a.txt")]).
Proof.
  exact (proj2 (proj2 (generatePatch_capture Script.env
                         (Some (mkOptions (Some "work") (Some ".git")))
                         (initial_state capture_disk)))
           (mkExecResult "4b825dc642cb6eb9a060e54bf8d69288fbee4904" "")
           (Script.mkDisk [Script.fails 1 "diff --git a/a.txt b/a.txt"] [])
           (mkCommandError 1 "diff --git a/a.txt b/a.txt" "")
           (Script.mkDisk [] [])
           (Script.mkDisk [] [("work/.lint-staged.patch", "diff --git a/a.txt b/a.txt")])
           eq_refl ltac:(discriminate) eq_refl eq_refl).
Defined.

(** C8 fails as stated.  The index and the working tree do not differ (the
    diff exits with zero): capture writes nothing and resolves, but with
    [undefined], not with [null]. *)
Lemma generatePatch_resolves_undefined_not_null :
  let s := initial_state (Script.mkDisk [Script.ok "4b825dc6"; Script.ok ""] []) in
  git_at Script.env (patch_diff_args "4b825dc6") None
    (Script.mkDisk [Script.ok ""] []) = (Script.ok "", Script.mkDisk [] [])
  /\ fst (generatePatch Script.env None s) = Resolved JUndefined
  /\ fst (generatePatch Script.env None s) <> Resolved JNull
  /\ Script.files (world (snd (generatePatch Script.env None s))) = [].
Proof.
  repeat split; try reflexivity. discriminate.
Qed.

(** C6 fails as stated.  [write-tree] itself fails, which is not the diff
    reporting a difference: the rejection does not reach the caller,
    capture resolves with the patch path and an empty patch file is
    written. *)
Lemma generatePatch_swallows_write_tree_failure :
  let s := initial_state broken_index_disk in
  let e := mkCommandError 128 "" "" in
  git_at Script.env ["write-tree"] None (world s) = (inr e, Script.mkDisk [] [])
  /\ fst (generatePatch Script.env None s) <> Rejected (CommandFailed e)
  /\ generatePatch Script.env None s =
       (Resolved (JStr "/repo/.lint-staged.patch"),
        mkState JUndefined JNull []
          (Script.mkDisk [] [("/repo/.lint-staged.patch", "")])
          [EvGit ["write-tree"] "/repo";
           EvWriteFile "/repo/.lint-staged.patch" (JStr "")]).
Proof.
  split; [reflexivity|]. split; [discriminate|reflexivity].
Qed.

Lemma generatePatch_converts_every_rejection_witness :
  generatePatch Script.env None (initial_state broken_index_disk) =
    (Resolved (JStr "/repo/.lint-staged.patch"),
     mkState JUndefined JNull []
       (Script.mkDisk [] [("/repo/.lint-staged.patch", "")])
       [EvGit ["write-tree"] "/repo";
        EvWriteFile "/repo/.lint-staged.patch" (JStr "")]).
Proof.
  exact (proj1 (generatePatch_converts_every_rejection Script.env None
                  (initial_state broken_index_disk)) _ _ _ _ _
           (rejected_by_write_tree Script.env None broken_index_disk
              (mkCommandError 128 "" "") (Script.mkDisk [] []) eq_refl) eq_refl).
Defined.

(** ** [gitStashPop] without a patch, and the two steps of [cleanup] *)

Section LifecycleProperties.
Context {W : Type} (env : Env W).

(** C7. [gitStashPop] with no remembered patch path -- [patchPath] is
    falsy, as it is in a freshly loaded module and after [cleanup] has set
    it to [null] -- fails with the "No patch found" error, and the state it
    leaves is the state it was called in: no command was run, the world and
    the trace are untouched. *)
Theorem gitStashPop_requires_patch o (s : state W) :
  (truthy (patchPath s) = false ->
   gitStashPop env o s = (Rejected no_patch, s))
  /\
  (forall o' s0 u, cleanup env o' s0 = (Resolved u, s) ->
   gitStashPop env o s = (Rejected no_patch, s)).
Proof.
  split.
  - apply gitStashPop_falsy.
  - intros o' s0 u H. apply gitStashPop_falsy.
    now rewrite (cleanup_clears env o' s0 s u H).
Qed.

(** C10. [cleanup] runs [git stash drop] first.  If that command fails,
    its error is the rejection of [cleanup]; the only call made is the
    failed [stash drop] -- [unlink] was not called, so the patch file is as
    git left it -- and [patchPath] still holds the path, so that
    [gitStashPop] can be called again and goes on to [gitApplyPatch].  When
    both calls succeed, the trace shows the drop before the unlink. *)
Theorem cleanup_not_atomic o (s : state W) :
  (forall e w',
      git_at env ["stash"; "drop"] o (world s) = (inr e, w') ->
      exists s',
        cleanup env o s = (Rejected (CommandFailed e), s')
        /\ patchPath s' = patchPath s
        /\ world s' = w'
        /\ log s' = (log s ++ [git_event env ["stash"; "drop"] o])%list
        /\ (forall p, patchPath s = JStr p -> truthy_str p = true ->
            gitStashPop env o s' = gitApplyPatch env p o s'))
  /\
  (forall r w1 w2,
      git_at env ["stash"; "drop"] o (world s) = (inl r, w1) ->
      fs_unlink env (patchPath s) w1 = (Resolved tt, w2) ->
      exists s',
        cleanup env o s = (Resolved tt, s')
        /\ patchPath s' = JNull
        /\ log s' = (log s ++ [git_event env ["stash"; "drop"] o;
                                EvUnlink (patchPath s)])%list).
Proof.
  split.
  - intros e w' H. eexists. split; [exact (cleanup_drop_rejected env o s e w' H)|].
    repeat split; try reflexivity.
    intros p Hp Ht. now apply gitStashPop_truthy.
  - intros r w1 w2 Hd Hu. eexists. split; [exact (cleanup_resolved env o s r w1 w2 Hd Hu)|].
    split; [reflexivity|]. js_simpl. now rewrite <- app_assoc.
Qed.

End LifecycleProperties.

Lemma gitStashPop_requires_patch_witness :
  truthy (patchPath (initial_state capture_disk)) = false
  /\ gitStashPop Script.env None (initial_state capture_disk) =
       (Rejected no_patch, initial_state capture_disk).
Proof.
  split; [reflexivity|].
  exact (proj1 (gitStashPop_requires_patch Script.env None (initial_state capture_disk))
           eq_refl).
Defined.

Lemma cleanup_not_atomic_witness :
  exists s',
    cleanup Script.env None (stashed [Script.fails 1 ""]) =
      (Rejected (CommandFailed (mkCommandError 1 "" "")), s')
    /\ patchPath s' = JStr patch_path
    /\ world s' = Script.mkDisk [] [(patch_path, "diff --git a/a.txt b/a.txt")]
    /\ log s' = [EvGit ["stash"; "drop"] "/repo"].
Proof.
  destruct (proj1 (cleanup_not_atomic Script.env None (stashed [Script.fails 1 ""]))
              (mkCommandError 1 "" "")
              (Script.mkDisk [] [(patch_path, "diff --git a/a.txt b/a.txt")])
              eq_refl) as (s' & H1 & H2 & H3 & H4 & _).
  exists s'. repeat split; assumption.
Defined.

(** ** Restoring: [gitApplyPatch] *)

Section Restore.
Context {W : Type} (env : Env W).

Lemma after_calls_app evs1 evs2 (w1 w2 : W) s :
  after_calls evs2 w2 (after_calls evs1 w1 s) = after_calls (evs1 ++ evs2) w2 s.
Proof. unfold after_calls. js_simpl. now rewrite app_assoc. Qed.

Lemma record_call_after ev (w : W) s :
  record_call ev w s = after_calls [ev] w s.
Proof. reflexivity. Qed.

Lemma world_after_calls evs (w : W) s : world (after_calls evs w s) = w.
Proof. reflexivity. Qed.

Lemma gitPopWithConflicts_done o (s : state W) w' :
  recovery_done env o (world s) w' ->
  exists r,
    gitPopWithConflicts env o s =
      (Resolved r,
       after_calls [git_event env ["stash"] o;
                    git_event env ["stash"; "pop"; "stash@{1}"] o;
                    git_event env ["read-tree"; "-m"; "-i"; "stash"] o] w' s).
Proof.
  intros (r3 & w3 & r4 & w4 & r5 & H3 & H4 & H5).
  exists r5. unfold gitPopWithConflicts. js_unfold.
  rewrite H3. js_simpl. rewrite H4. js_simpl. rewrite H5.
  unfold after_calls, record_call. js_simpl. now rewrite <- !app_assoc.
Qed.

(** Recovery either runs to its end or is rejected by one of its
    commands, and then [gitPopWithConflicts] rejects with that error,
    leaving the module variables as they were. *)
Lemma gitPopWithConflicts_cases o (s : state W) :
  (exists w', recovery_done env o (world s) w')
  \/ (exists e s',
        recovery_failed env o (world s) e
        /\ gitPopWithConflicts env o s = (Rejected (CommandFailed e), s')
        /\ patchPath s' = patchPath s).
Proof.
  unfold gitPopWithConflicts, recovery_done, recovery_failed. js_unfold.
  destruct (git_at env ["stash"] o (world s)) as [[r3|e] w3] eqn:H3; js_simpl.
  2:{ right. exists e. eexists. split; [left; eauto|]. split; reflexivity. }
  destruct (git_at env ["stash"; "pop"; "stash@{1}"] o w3) as [[r4|e] w4] eqn:H4; js_simpl.
  2:{ right. exists e. eexists. split; [right; left; eauto 6|]. split; reflexivity. }
  destruct (git_at env ["read-tree"; "-m"; "-i"; "stash"] o w4) as [[r5|e] w5] eqn:H5.
  - left. exists w5, r3, w3, r4, w4, r5. auto.
  - right. exists e. eexists. split; [right; right; eauto 10|]. split; reflexivity.
Qed.

Lemma gitApplyPatch_restored o p (s : state W) w' evs :
  restored env o p (world s) w' evs ->
  gitApplyPatch env p o s = cleanup env o (after_calls evs w' s).
Proof.
  intros H. unfold gitApplyPatch.
  destruct H as [r1 w1 r2 w2 Hc Ha | r1 w1 e w2 w' Hc Ha Hr | e w1 w' Hc Hr].
  - unfold bind at 1, catch. unfold bind at 1.
    rewrite (execGit_resolved env _ _ _ _ _ Hc).
    unfold bind at 1, gitApply.
    erewrite execGit_resolved by (js_simpl; exact Ha).
    unfold ret. rewrite !record_call_after, after_calls_app. reflexivity.
  - unfold bind at 1, catch. unfold bind at 1.
    rewrite (execGit_resolved env _ _ _ _ _ Hc).
    unfold bind at 1, gitApply.
    erewrite execGit_rejected by (js_simpl; exact Ha).
    unfold bind at 1, console_log. unfold bind at 1.
    rewrite !record_call_after, !after_calls_app, ?world_after_calls.
    destruct (gitPopWithConflicts_done o (after_calls
                ([git_event env ["checkout"; "--"; "."] o] ++
                 [git_event env ["apply"; "--whitespace=nowarn"; p] o] ++
                 [EvConsole conflict_msg]) w2 s) w' Hr) as (r & ->).
    unfold ret. rewrite after_calls_app. reflexivity.
  - unfold bind at 1, catch. unfold bind at 1.
    rewrite (execGit_rejected env _ _ _ _ _ Hc).
    unfold bind at 1, console_log. unfold bind at 1.
    rewrite !record_call_after, !after_calls_app, ?world_after_calls.
    destruct (gitPopWithConflicts_done o (after_calls
                ([git_event env ["checkout"; "--"; "."] o] ++
                 [EvConsole conflict_msg]) w1 s) w' Hr) as (r & ->).
    unfold ret. rewrite after_calls_app. reflexivity.
Qed.

(** Every run of [gitApplyPatch]: its [try]/[catch] completes and
    [cleanup] takes over, or conflict recovery itself is rejected and that
    rejection is the result. *)
Lemma gitApplyPatch_cases o p (s : state W) :
  (exists w' evs,
      restored env o p (world s) w' evs
      /\ gitApplyPatch env p o s = cleanup env o (after_calls evs w' s))
  \/ (exists w e s',
        recovery_failed env o w e
        /\ gitApplyPatch env p o s = (Rejected (CommandFailed e), s')
        /\ patchPath s' = patchPath s).
Proof.
  destruct (git_at env ["checkout"; "--"; "."] o (world s)) as [[r1|e1] w1] eqn:Hc.
  - destruct (git_at env ["apply"; "--whitespace=nowarn"; p] o w1) as [[r2|e2] w2] eqn:Ha.
    + left. exists w2. eexists. split; [exact (applied_cleanly env o p _ r1 w1 r2 w2 Hc Ha)|].
      apply gitApplyPatch_restored. exact (applied_cleanly env o p _ r1 w1 r2 w2 Hc Ha).
    + pose (s2 := after_calls [git_event env ["checkout"; "--"; "."] o;
                               git_event env ["apply"; "--whitespace=nowarn"; p] o;
                               EvConsole conflict_msg] w2 s).
      destruct (gitPopWithConflicts_cases o s2) as [(w' & Hr) | (e & s' & Hf & Hrun & Hp)].
      * left. exists w'. eexists.
        split; [exact (recovered_from_apply env o p _ r1 w1 e2 w2 w' Hc Ha Hr)|].
        apply gitApplyPatch_restored.
        exact (recovered_from_apply env o p _ r1 w1 e2 w2 w' Hc Ha Hr).
      * right. exists w2, e, s'. split; [exact Hf|]. split; [|exact Hp].
        unfold gitApplyPatch. unfold bind at 1, catch. unfold bind at 1.
        rewrite (execGit_resolved env _ _ _ _ _ Hc).
        unfold bind at 1, gitApply.
        erewrite execGit_rejected by (js_simpl; exact Ha).
        unfold bind at 1, console_log. unfold bind at 1.
        rewrite !record_call_after, !after_calls_app, ?world_after_calls.
        fold s2 in Hrun |- *. change (after_calls _ w2 s) with s2. now rewrite Hrun.
  - pose (s1 := after_calls [git_event env ["checkout"; "--"; "."] o;
                             EvConsole conflict_msg] w1 s).
    destruct (gitPopWithConflicts_cases o s1) as [(w' & Hr) | (e & s' & Hf & Hrun & Hp)].
    + left. exists w'. eexists.
      split; [exact (recovered_from_checkout env o p _ e1 w1 w' Hc Hr)|].
      apply gitApplyPatch_restored.
      exact (recovered_from_checkout env o p _ e1 w1 w' Hc Hr).
    + right. exists w1, e, s'. split; [exact Hf|]. split; [|exact Hp].
      unfold gitApplyPatch. unfold bind at 1, catch. unfold bind at 1.
      rewrite (execGit_rejected env _ _ _ _ _ Hc).
      unfold bind at 1, console_log. unfold bind at 1.
      rewrite !record_call_after, !after_calls_app, ?world_after_calls.
      change (after_calls _ w1 s) with s1. now rewrite Hrun.
Qed.

End Restore.

Section RestoreProperties.
Context {W : Type} (env : Env W).

Lemma gitStashPop_restored o p (s : state W) w' evs :
  patchPath s = JStr p -> truthy_str p = true ->
  restored env o p (world s) w' evs ->
  gitStashPop env o s = cleanup env o (after_calls evs w' s).
Proof.
  intros Hp Ht H. rewrite (gitStashPop_truthy env o s p Hp Ht).
  now apply gitApplyPatch_restored.
Qed.

Lemma gitStashPop_cleaned o p (s : state W) w' evs r w1 w2 :
  patchPath s = JStr p -> truthy_str p = true ->
  restored env o p (world s) w' evs ->
  git_at env ["stash"; "drop"] o w' = (inl r, w1) ->
  fs_unlink env (JStr p) w1 = (Resolved tt, w2) ->
  gitStashPop env o s =
    (Resolved tt,
     set_patchPath JNull
       (after_calls (evs ++ [git_event env ["stash"; "drop"] o; EvUnlink (JStr p)]) w2 s)).
Proof.
  intros Hp Ht H Hd Hu. rewrite (gitStashPop_restored o p s w' evs Hp Ht H).
  rewrite (cleanup_resolved env o (after_calls evs w' s) r w1 w2 Hd).
  - cbn [patchPath after_calls]. rewrite Hp, !record_call_after, !after_calls_app.
    reflexivity.
  - cbn [patchPath after_calls]. now rewrite Hp.
Qed.

(** C2, as the code has it.  With a remembered patch [p], [gitStashPop]
    first runs [git checkout -- .] and then
    [git apply --whitespace=nowarn p].  If the patch is rejected it prints
    its message and runs conflict recovery -- [git stash],
    [git stash pop stash@{1}], [git read-tree -m -i stash], in that order --
    and the rejection of [apply] goes no further: these commands and those
    of [cleanup] succeeding, [gitStashPop] resolves, with [patchPath] set
    to [null].  The statement is about the calls made and their order;
    what the files hold afterwards is git's doing. *)
Theorem gitStashPop_recovers_from_conflict o p (s : state W)
    r1 w1 e w2 w5 r6 w6 w7 :
  patchPath s = JStr p -> truthy_str p = true ->
  git_at env ["checkout"; "--"; "."] o (world s) = (inl r1, w1) ->
  git_at env ["apply"; "--whitespace=nowarn"; p] o w1 = (inr e, w2) ->
  recovery_done env o w2 w5 ->
  git_at env ["stash"; "drop"] o w5 = (inl r6, w6) ->
  fs_unlink env (JStr p) w6 = (Resolved tt, w7) ->
  gitStashPop env o s =
    (Resolved tt,
     mkState JNull (workTree s) (trees s) w7
       (log s ++
        [git_event env ["checkout"; "--"; "."] o;
         git_event env ["apply"; "--whitespace=nowarn"; p] o;
         EvConsole conflict_msg;
         git_event env ["stash"] o;
         git_event env ["stash"; "pop"; "stash@{1}"] o;
         git_event env ["read-tree"; "-m"; "-i"; "stash"] o;
         git_event env ["stash"; "drop"] o;
         EvUnlink (JStr p)])%list).
Proof.
  intros Hp Ht Hc Ha Hr Hd Hu.
  exact (gitStashPop_cleaned o p s w5 _ r6 w6 w7 Hp Ht
           (recovered_from_apply env o p _ r1 w1 e w2 w5 Hc Ha Hr) Hd Hu).
Qed.


End RestoreProperties.

Lemma gitStashPop_recovers_from_conflict_witness :
  gitStashPop Script.env None
    (stashed [Script.ok ""; Script.fails 1 "error: patch failed: a.txt:1";
              Script.ok "Saved working directory"; Script.ok ""; Script.ok "";
              Script.ok "Dropped refs/stash@{0}"]) =
  (Resolved tt,
   mkState JNull JNull [] (Script.mkDisk [] [])
     [EvGit ["checkout"; "--"; "."] "/repo";
      EvGit ["apply"; "--whitespace=nowarn"; patch_path] "/repo";
      EvConsole conflict_msg;
      EvGit ["stash"] "/repo";
      EvGit ["stash"; "pop"; "stash@{1}"] "/repo";
      EvGit ["read-tree"; "-m"; "-i"; "stash"] "/repo";
      EvGit ["stash"; "drop"] "/repo";
      EvUnlink (JStr patch_path)]).
Proof.
  eapply (gitStashPop_recovers_from_conflict Script.env None patch_path);
    [ reflexivity | reflexivity | reflexivity | reflexivity
    | do 5 eexists; repeat split; reflexivity
    | reflexivity | reflexivity ].
Defined.


(** ** The tree ledger: [gitPop] *)

Section Ledger.
Context {W : Type} (env : Env W).

Lemma gitPop_requires o (s : state W) :
  truthy (workTree s) = false \/ trees s = [] ->
  gitPop env o s = (Rejected need_trees, s).
Proof.
  intros H. unfold gitPop, bind, get.
  destruct (workTree s) as [| |wt]; try reflexivity.
  destruct H as [H | H].
  - simpl in H. now rewrite H.
  - rewrite H. simpl. now rewrite orb_true_r.
Qed.

Lemma gitPop_run o (s : state W) wt r1 w1 r2 w2 r3 w3 r4 w4 :
  workTree s = JStr wt -> truthy_str wt = true -> trees s <> [] ->
  git_at env ["read-tree"; wt] o (world s) = (inl r1, w1) ->
  git_at env ["checkout-index"; "-af"] o w1 = (inl r2, w2) ->
  git_at env ["read-tree"; layered_tree (trees s)] o w2 = (inl r3, w3) ->
  git_at env ["checkout-index"] o w3 = (inl r4, w4) ->
  gitPop env o s =
    (Resolved tt,
     after_calls
       [git_event env ["read-tree"; wt] o;
        git_event env ["checkout-index"; "-af"] o;
        git_event env ["read-tree"; layered_tree (trees s)] o;
        git_event env ["checkout-index"] o] w4 s).
Proof.
  intros Hw Ht Hne H1 H2 H3 H4. unfold gitPop. unfold bind at 1, get.
  rewrite Hw, Ht.
  destruct (trees s) as [|t0 ts] eqn:Hts; [contradiction|].
  change (negb true || (length (t0 :: ts) =? 0)%nat) with false. cbv iota.
  replace (if (length (t0 :: ts) =? 1)%nat
           then execGit env ["read-tree"; nth 0 (t0 :: ts) ""] o
           else execGit env ["read-tree"; nth 1 (t0 :: ts) ""] o)
    with (execGit env ["read-tree"; layered_tree (t0 :: ts)] o)
    by (unfold layered_tree; now destruct (length (t0 :: ts) =? 1)%nat).
  js_unfold. rewrite H1. js_simpl. rewrite H2. js_simpl. rewrite H3. js_simpl.
  rewrite H4. unfold after_calls, record_call. js_simpl.
  now rewrite Hts, <- !app_assoc.
Qed.

(** C9, as the code has it.  With [W] set and a non-empty ledger, [gitPop]
    reads [W] into the index and checks it out over the working tree
    ([checkout-index -af]), then reads one ledger tree into the index and
    ends with [checkout-index].  The tree is chosen by position from the
    front: the only entry of a one-entry ledger (its last), and the entry
    at index 1 of any longer ledger. *)
Theorem gitPop_layers_entry_one o (s : state W) wt r1 w1 r2 w2 r3 w3 r4 w4 :
  workTree s = JStr wt -> truthy_str wt = true -> trees s <> [] ->
  git_at env ["read-tree"; wt] o (world s) = (inl r1, w1) ->
  git_at env ["checkout-index"; "-af"] o w1 = (inl r2, w2) ->
  git_at env ["read-tree"; layered_tree (trees s)] o w2 = (inl r3, w3) ->
  git_at env ["checkout-index"] o w3 = (inl r4, w4) ->
  gitPop env o s =
    (Resolved tt,
     after_calls
       [git_event env ["read-tree"; wt] o;
        git_event env ["checkout-index"; "-af"] o;
        git_event env ["read-tree"; layered_tree (trees s)] o;
        git_event env ["checkout-index"] o] w4 s)
  /\ (length (trees s) = 1%nat -> layered_tree (trees s) = last (trees s) "")
  /\ ((1 < length (trees s))%nat ->
      nth_error (trees s) 1 = Some (layered_tree (trees s))).
Proof.
  intros Hw Ht Hne H1 H2 H3 H4. split; [now apply (gitPop_run o s wt r1 w1 r2 w2 r3 w3 r4 w4)|].
  split; intros Hl; unfold layered_tree.
  - rewrite Hl. destruct (trees s) as [|t0 [|t1 ts]]; try discriminate. reflexivity.
  - destruct (trees s) as [|t0 [|t1 ts]]; simpl in Hl; try lia. reflexivity.
Qed.

End Ledger.

(** C9 fails as stated.  After [gitStash] and one [updateStash] the ledger
    is [T0; T1]; the tree [gitPop] layers back is [T1], the last entry.  The
    second-to-last, [T0], is never read. *)
Lemma gitPop_two_entries_layers_the_last :
  let s := advanced_session in
  workTree s = JStr "W"
  /\ trees s = ["T0"; "T1"]
  /\ second_to_last (trees s) = Some "T0"
  /\ fst (gitPop Script.env None s) = Resolved tt
  /\ skipn (length (log s)) (log (snd (gitPop Script.env None s))) =
       [EvGit ["read-tree"; "W"] "/repo";
        EvGit ["checkout-index"; "-af"] "/repo";
        EvGit ["read-tree"; "T1"] "/repo";
        EvGit ["checkout-index"] "/repo"]
  /\ ~ In (EvGit ["read-tree"; "T0"] "/repo")
         (skipn (length (log s)) (log (snd (gitPop Script.env None s)))).
Proof.
  repeat split; try reflexivity.
  simpl. intros [H|[H|[H|[H|[]]]]]; discriminate.
Qed.

Lemma gitPop_layers_entry_one_witness :
  gitPop Script.env None (ledger_session ["T0"; "T1"; "T2"]) =
    (Resolved tt,
     mkState JUndefined (JStr "W") ["T0"; "T1"; "T2"] (Script.mkDisk [] [])
       [EvGit ["read-tree"; "W"] "/repo";
        EvGit ["checkout-index"; "-af"] "/repo";
        EvGit ["read-tree"; "T1"] "/repo";
        EvGit ["checkout-index"] "/repo"]).
Proof.
  eapply (fun wt r1 w1 r2 w2 r3 w3 r4 w4 Hw Ht Hne H1 H2 H3 H4 =>
            proj1 (gitPop_layers_entry_one Script.env None
                     (ledger_session ["T0"; "T1"; "T2"])
                     wt r1 w1 r2 w2 r3 w3 r4 w4 Hw Ht Hne H1 H2 H3 H4));
    [ reflexivity | reflexivity | discriminate
    | reflexivity | reflexivity | reflexivity | reflexivity ].
Defined.

(** ** Saving: [getUnstagedFiles], [hasUnstagedFiles], [gitStashSave] *)

Section Save.
Context {W : Type} (env : Env W).

Lemma split_lines_length s : (0 <? length (split_lines s))%nat = true.
Proof.
  destruct s as [|c rest]; [reflexivity|]. simpl.
  destruct (Ascii.eqb c newline); [reflexivity|].
  now destruct (split_lines rest).
Qed.

Lemma hasUnstagedFiles_detected o (s : state W) w' evs :
  unstaged_detected env o (world s) w' evs ->
  hasUnstagedFiles env o s = (Resolved true, after_calls evs w' s).
Proof.
  intros [r1 w1 r2 w2 H1 Ht1 H2 Ht2].
  unfold hasUnstagedFiles, getUnstagedFiles. js_unfold.
  rewrite H1, Ht1. js_simpl. rewrite H2, Ht2, split_lines_length.
  unfold after_calls, record_call. js_simpl. now rewrite <- app_assoc.
Qed.

Lemma hasUnstagedFiles_nothing o (s : state W) w' evs :
  nothing_unstaged env o (world s) w' evs ->
  hasUnstagedFiles env o s = (Resolved false, after_calls evs w' s).
Proof.
  intros [r1 w1 H1 Ht1 | r1 w1 r2 w2 H1 Ht1 H2 Ht2];
    unfold hasUnstagedFiles, getUnstagedFiles; js_unfold.
  - rewrite H1, Ht1. reflexivity.
  - rewrite H1, Ht1. js_simpl. rewrite H2, Ht2.
    unfold after_calls, record_call. js_simpl. now rewrite <- app_assoc.
Qed.

Lemma gitStashSave_nothing o (s : state W) w' evs :
  nothing_unstaged env o (world s) w' evs ->
  gitStashSave env o s = (Resolved None, after_calls evs w' s).
Proof.
  intros H. unfold gitStashSave.
  now rewrite (bind_resolved _ _ _ _ _ (hasUnstagedFiles_nothing o s w' evs H)).
Qed.

Lemma gitStashSave_saved o (s : state W) e r w' evs :
  stash_saved env o (world s) e r w' evs ->
  gitStashSave env o s =
    (Resolved (Some r), set_patchPath (JStr (patch_file env o)) (after_calls evs w' s)).
Proof.
  intros [w2 evs0 r3 w3 e0 w4 w5 r6 w6 Hdet H3 Ht3 H4 Hw H6].
  unfold gitStashSave.
  rewrite (bind_resolved _ _ _ _ _ (hasUnstagedFiles_detected o s w2 evs0 Hdet)).
  cbv iota.
  erewrite bind_resolved; cycle 1.
  { rewrite (generatePatch_rejected env o (after_calls evs0 w2 s) e0 w4 _ _ w5
               (rejected_by_diff env o _ r3 w3 e0 w4 H3 Ht3 H4) Hw).
    reflexivity. }
  js_unfold. js_simpl. cbn [after_calls world]. rewrite H6.
  unfold set_patchPath, after_calls, record_call. js_simpl.
  now rewrite <- !app_assoc.
Qed.

End Save.

(** ** The repository under the contract *)

Section Repository.
Context {W : Type} (env : Env W) (o : option Options) (V : RepoView W).
Hypothesis contract : GitContract env o V.

Lemma same_repo_refl w : same_repo V w w.
Proof. repeat split. Qed.

Lemma same_repo_trans w1 w2 w3 :
  same_repo V w1 w2 -> same_repo V w2 w3 -> same_repo V w1 w3.
Proof.
  intros (A1 & A2 & A3 & A4) (B1 & B2 & B3 & B4).
  repeat split; try congruence.
Qed.

Lemma nothing_unstaged_reads w w' evs :
  nothing_unstaged env o w w' evs ->
  same_repo V w w' /\ (forall ev, In ev evs -> is_query env o ev).
Proof.
  intros [r1 w1 H1 _ | r1 w1 r2 w2 H1 _ H2 _]; split.
  - exact (write_tree_reads env o V contract _ _ _ H1).
  - intros ev [<-|[]]. now left.
  - exact (same_repo_trans _ _ _ (write_tree_reads env o V contract _ _ _ H1)
             (name_diff_reads env o V contract _ _ _ _ H2)).
  - intros ev [<-|[<-|[]]]; [now left | right; eauto].
Qed.

Lemma unstaged_detected_reads w w' evs :
  unstaged_detected env o w w' evs -> same_repo V w w'.
Proof.
  intros [r1 w1 r2 w2 H1 _ H2 _].
  exact (same_repo_trans _ _ _ (write_tree_reads env o V contract _ _ _ H1)
           (name_diff_reads env o V contract _ _ _ _ H2)).
Qed.

(** The repository after a complete [gitStashSave]. *)
Lemma stash_saved_repo w e r w' evs :
  stash_saved env o w e r w' evs ->
  work_tree V w' = index_tree V w
  /\ index_tree V w' = index_tree V w
  /\ file_at V w' (patch_file env o) = Some (cmd_stdout e)
  /\ (exit_code e = 1%Z ->
      patch_apply V (cmd_stdout e) (index_tree V w) = Some (work_tree V w))
  /\ (work_tree V w <> index_tree V w ->
      exists en, stash_list V w' = en :: stash_list V w).
Proof.
  intros [w2 evs0 r3 w3 e0 w4 w5 r6 w6 Hdet H3 Ht3 H4 Hw H6].
  destruct (unstaged_detected_reads _ _ _ Hdet) as (D1 & D2 & D3 & D4).
  destruct (write_tree_reads env o V contract _ _ _ H3) as (T1 & T2 & T3 & T4).
  destruct (patch_diff_reads env o V contract _ _ _ _ H4) as (P1 & P2 & P3 & P4).
  destruct (write_patch_file env o V contract _ _ _ Hw) as (F1 & F2 & F3 & F4).
  destruct (stash_keep_index env o V contract _ _ _ H6) as (S1 & S2 & S3 & S4).
  assert (Hwork : work_tree V w5 = work_tree V w) by congruence.
  assert (Hindex : index_tree V w5 = index_tree V w) by congruence.
  assert (Hstash : stash_list V w5 = stash_list V w) by congruence.
  repeat split.
  - congruence.
  - congruence.
  - now rewrite S3.
  - intros He. rewrite <- D1, <- D2.
    exact (patch_diff_meaning env o V contract _ _ _ _ _ H3 H4 He).
  - intros Hne. rewrite <- Hstash. apply S4. now rewrite Hwork, Hindex.
Qed.




End Repository.

(** ** The one-file repository keeps the contract *)

Lemma toy_lookup_without p fs : Toy.lookup p (Toy.without p fs) = None.
Proof.
  unfold Toy.lookup, Toy.without.
  induction fs as [|[q d] fs IH]; [reflexivity|].
  simpl. destruct (q =? p) eqn:E; simpl; [exact IH|]. now rewrite E.
Qed.

Lemma toy_contract : GitContract Toy.env None Toy.view.
Proof.
  constructor; unfold git_at, git_argv, git_dir, same_repo; simpl.
  - intros w r w' H. injection H as _ <-. repeat split.
  - intros t w r w' H. injection H as _ <-. repeat split.
  - intros t w r w' H. destruct (Toy.work w =? Toy.index w);
      injection H as _ <-; repeat split.
  - intros w r w1 e w2 H1 H _. injection H1 as _ <-.
    destruct (Toy.work w =? Toy.index w); [discriminate|].
    injection H as <- _. reflexivity.
  - intros d w w' H. injection H as <-. simpl. repeat split.
  - intros w w' H.
    destruct (Toy.lookup "/repo/.lint-staged.patch" (Toy.untracked w)); [|discriminate].
    injection H as <-. simpl. repeat split. apply toy_lookup_without.
  - intros w r w' H. destruct (String.eqb_spec (Toy.work w) (Toy.index w)) as [E|E];
      injection H as _ <-; simpl; repeat split; try assumption.
    + intros Hne. contradiction.
    + intros _. eexists. reflexivity.
  - intros w r w' H. injection H as _ <-. repeat split.
  - intros w r w' H.
    destruct (Toy.lookup "/repo/.lint-staged.patch" (Toy.untracked w)) as [d|] eqn:E;
      [|discriminate].
    injection H as _ <-. simpl. repeat split. now exists d.
  - intros w r w' H. destruct (Toy.stash w) as [|en older] eqn:E; [discriminate|].
    injection H as _ <-. simpl. repeat split.
Qed.

(** ** Saving and restoring in the one-file repository *)

Lemma toy_nothing_unstaged :
  nothing_unstaged Toy.env None Toy.pristine Toy.pristine
    [EvGit ["write-tree"] "/repo"; EvGit (name_only_args "tree:v1") "/repo"].
Proof.
  exact (nothing_listed Toy.env None Toy.pristine
           (mkExecResult "tree:v1" "") Toy.pristine (mkExecResult "" "") Toy.pristine
           eq_refl eq_refl eq_refl eq_refl).
Qed.

Lemma toy_stash_saved :
  stash_saved Toy.env None Toy.edited
    (mkCommandError 1 "v2" "")
    (mkExecResult "Saved working directory and index state" "")
    (Toy.mkRepo "v1" "v1" [("v1", "v2")] [("/repo/.lint-staged.patch", "v2")])
    [EvGit ["write-tree"] "/repo"; EvGit (name_only_args "tree:v1") "/repo";
     EvGit ["write-tree"] "/repo"; EvGit (patch_diff_args "tree:v1") "/repo";
     EvWriteFile "/repo/.lint-staged.patch" (JStr "v2");
     EvGit ["stash"; "--keep-index"] "/repo"].
Proof.
  refine (saved Toy.env None Toy.edited Toy.edited _
            (mkExecResult "tree:v1" "") Toy.edited (mkCommandError 1 "v2" "") Toy.edited
            (Toy.mkRepo "v1" "v2" [] [("/repo/.lint-staged.patch", "v2")])
            _ _
            (detected Toy.env None Toy.edited
               (mkExecResult "tree:v1" "") Toy.edited (mkExecResult "a.txt" "") Toy.edited
               eq_refl eq_refl eq_refl eq_refl)
            eq_refl eq_refl eq_refl eq_refl eq_refl).
Qed.



(** * Further properties of the module *)

(** ** Paths handed to execa *)

Section Paths.
Context {W : Type} (env : Env W).

(** X1. [path.resolve] returns absolute paths; then [getAbsolutePath]
    returns an absolute path, leaves an absolute one as it is, and is
    idempotent, so that the directory every [execGit] call hands to execa
    is absolute and so is the [--git-dir] argument whenever there is one. *)
Theorem getAbsolutePath_absolute :
  (forall p, path_isAbsolute env (path_resolve env p) = true) ->
  (forall d, path_isAbsolute env (getAbsolutePath env d) = true)
  /\ (forall d, path_isAbsolute env d = true -> getAbsolutePath env d = d)
  /\ (forall d, getAbsolutePath env (getAbsolutePath env d) = getAbsolutePath env d)
  /\ (forall cmd o, exists argv dir,
         git_event env cmd o = EvGit argv dir /\ path_isAbsolute env dir = true)
  /\ (forall gd, getCmdArgs env gd = []
                 \/ exists p, getCmdArgs env gd = ["--git-dir"; p]
                              /\ path_isAbsolute env p = true).
Proof.
  intros Hres.
  assert (Habs : forall d, path_isAbsolute env (getAbsolutePath env d) = true).
  { intros d. unfold getAbsolutePath.
    destruct (path_isAbsolute env d) eqn:E; [exact E | apply Hres]. }
  assert (Hid : forall d, path_isAbsolute env d = true -> getAbsolutePath env d = d).
  { intros d E. unfold getAbsolutePath. now rewrite E. }
  repeat split.
  - exact Habs.
  - exact Hid.
  - intros d. apply Hid, Habs.
  - intros cmd o. unfold git_event, git_dir. eauto.
  - intros [d|]; simpl; [|now left].
    destruct (truthy_str d); [right; eauto | now left].
Qed.

End Paths.

Lemma getAbsolutePath_absolute_witness :
  getAbsolutePath Script.env "sub" = "/repo/sub"
  /\ path_isAbsolute Script.env (getAbsolutePath Script.env "sub") = true
  /\ getAbsolutePath Script.env "/elsewhere" = "/elsewhere".
Proof.
  split; [reflexivity|]. split.
  - exact (proj1 (getAbsolutePath_absolute Script.env (fun p => eq_refl)) "sub").
  - exact (proj1 (proj2 (getAbsolutePath_absolute Script.env (fun p => eq_refl)))
             "/elsewhere" eq_refl).
Defined.

(** ** The paths [getUnstagedFiles] returns *)

Section UnstagedFiles.
Context {W : Type} (env : Env W).

Lemma split_lines_not_nil s : split_lines s <> [].
Proof.
  destruct s as [|c rest]; simpl; [discriminate|].
  destruct (Ascii.eqb c newline); [discriminate|].
  destruct (split_lines rest); discriminate.
Qed.

Lemma concat_split_lines s :
  String.concat (String newline EmptyString) (split_lines s) = s.
Proof.
  induction s as [|c rest IH]; [reflexivity|].
  simpl split_lines.
  destruct (Ascii.eqb_spec c newline) as [->|Hc].
  - destruct (split_lines rest) as [|h t] eqn:E; [now destruct (split_lines_not_nil rest)|].
    change (String.concat (String newline "") ("" :: h :: t))
      with (String newline (String.concat (String newline "") (h :: t))).
    now rewrite IH.
  - destruct (split_lines rest) as [|h t] eqn:E; [now destruct (split_lines_not_nil rest)|].
    destruct t as [|h' t'].
    + simpl in *. now rewrite IH.
    + change (String.concat (String newline "") (String c h :: h' :: t'))
        with (String c (h ++ String newline "" ++ String.concat (String newline "") (h' :: t'))).
      change (String.concat (String newline "") (h :: h' :: t'))
        with (h ++ String newline "" ++ String.concat (String newline "") (h' :: t')) in IH.
      now rewrite IH.
Qed.

Lemma split_lines_no_newline s l :
  In l (split_lines s) -> forall n, String.get n l <> Some newline.
Proof.
  revert l. induction s as [|c rest IH]; intros l Hin n.
  - destruct Hin as [<-|[]]. now destruct n.
  - simpl in Hin. destruct (Ascii.eqb_spec c newline) as [->|Hc].
    + destruct Hin as [<-|Hin]; [now destruct n | now apply IH].
    + destruct (split_lines rest) as [|h t] eqn:E.
      * destruct Hin as [<-|[]]. destruct n as [|[|n]]; simpl; congruence.
      * destruct Hin as [<-|Hin].
        -- destruct n as [|n]; simpl; [congruence|]. apply IH. now left.
        -- apply IH. now right.
Qed.

(** X2. When [write-tree] prints a tree and the name-only diff succeeds,
    [getUnstagedFiles] resolves after exactly these two calls with the
    lines of the diff's output: no path when the output is empty (and not
    the one empty path that splitting the empty string would give), and
    otherwise paths that hold no newline and, joined by newlines, are the
    output again. *)
Theorem getUnstagedFiles_lines o (s : state W) r1 w1 r2 w2 :
  git_at env ["write-tree"] o (world s) = (inl r1, w1) ->
  truthy_str (stdout r1) = true ->
  git_at env (name_only_args (stdout r1)) o w1 = (inl r2, w2) ->
  exists files,
    getUnstagedFiles env o s =
      (Resolved files,
       after_calls [git_event env ["write-tree"] o;
                    git_event env (name_only_args (stdout r1)) o] w2 s)
    /\ (files = [] <-> stdout r2 = "")
    /\ String.concat (String newline EmptyString) files = stdout r2
    /\ (forall l, In l files -> forall n, String.get n l <> Some newline).
Proof.
  intros H1 Ht H2.
  exists (if truthy_str (stdout r2) then split_lines (stdout r2) else []).
  split.
  { unfold getUnstagedFiles. js_unfold. rewrite H1, Ht. js_simpl. rewrite H2.
    unfold after_calls, record_call. js_simpl. now rewrite <- app_assoc. }
  unfold truthy_str. destruct (String.eqb_spec (stdout r2) "") as [E|E]; simpl.
  - rewrite E. repeat split; auto.
  - repeat split.
    + intros Hnil. now destruct (split_lines_not_nil (stdout r2)).
    + intros Hempty. contradiction.
    + apply concat_split_lines.
    + apply split_lines_no_newline.
Qed.

End UnstagedFiles.

Lemma getUnstagedFiles_lines_witness :
  exists files,
    getUnstagedFiles Script.env None (initial_state two_paths_disk) =
      (Resolved files,
       after_calls [EvGit ["write-tree"] "/repo";
                    EvGit (name_only_args "T") "/repo"]
         (Script.mkDisk [] []) (initial_state two_paths_disk))
    /\ (files = [] <-> two_paths = "")
    /\ String.concat (String newline EmptyString) files = two_paths
    /\ (forall l, In l files -> forall n, String.get n l <> Some newline).
Proof.
  exact (getUnstagedFiles_lines Script.env None (initial_state two_paths_disk)
           (mkExecResult "T" "") (Script.mkDisk [Script.ok two_paths] [])
           (mkExecResult two_paths "") (Script.mkDisk [] [])
           eq_refl eq_refl eq_refl).
Defined.

(** ** Saving, when something goes wrong *)

Section SaveFailures.
Context {W : Type} (env : Env W).

(** X3. Detection only reads.  Whatever [hasUnstagedFiles] ends with, it
    has left the module variables alone and called nothing but
    [write-tree] and the name-only diff.  It resolves [true] exactly when a
    tree was printed and the diff printed paths, [false] when there was no
    tree or no path, and it rejects only with the error of one of the two
    commands; that rejection is then the rejection of [gitStashSave], which
    stops there. *)
Theorem hasUnstagedFiles_only_reads o (s : state W) res s' :
  hasUnstagedFiles env o s = (res, s') ->
  (exists evs,
      s' = after_calls evs (world s') s
      /\ (forall ev, In ev evs -> is_query env o ev)
      /\ match res with
         | Resolved true => unstaged_detected env o (world s) (world s') evs
         | Resolved false => nothing_unstaged env o (world s) (world s') evs
         | Rejected x =>
             exists e, x = CommandFailed e
               /\ (git_at env ["write-tree"] o (world s) = (inr e, world s')
                   \/ exists r1 w1,
                        git_at env ["write-tree"] o (world s) = (inl r1, w1)
                        /\ truthy_str (stdout r1) = true
                        /\ git_at env (name_only_args (stdout r1)) o w1
                           = (inr e, world s'))
         end)
  /\ (forall x, res = Rejected x -> gitStashSave env o s = (Rejected x, s')).
Proof.
  intros H. split.
  - revert H. unfold hasUnstagedFiles, getUnstagedFiles. js_unfold.
    destruct (git_at env ["write-tree"] o (world s)) as [[r1|e] w1] eqn:H1; js_simpl.
    + destruct (truthy_str (stdout r1)) eqn:Ht1; js_simpl.
      * destruct (git_at env (name_only_args (stdout r1)) o w1) as [[r2|e] w2] eqn:H2;
          js_simpl.
        -- destruct (truthy_str (stdout r2)) eqn:Ht2.
           ++ rewrite split_lines_length. intros H. injection H as <- <-.
              exists [git_event env ["write-tree"] o;
                      git_event env (name_only_args (stdout r1)) o].
              split; [unfold after_calls, record_call; js_simpl; now rewrite <- app_assoc|].
              split; [intros ev [<-|[<-|[]]]; [now left | right; eauto]|].
              exact (detected env o _ r1 w1 r2 w2 H1 Ht1 H2 Ht2).
           ++ intros H. injection H as <- <-.
              exists [git_event env ["write-tree"] o;
                      git_event env (name_only_args (stdout r1)) o].
              split; [unfold after_calls, record_call; js_simpl; now rewrite <- app_assoc|].
              split; [intros ev [<-|[<-|[]]]; [now left | right; eauto]|].
              exact (nothing_listed env o _ r1 w1 r2 w2 H1 Ht1 H2 Ht2).
        -- intros H. injection H as <- <-.
           exists [git_event env ["write-tree"] o;
                   git_event env (name_only_args (stdout r1)) o].
           split; [unfold after_calls, record_call; js_simpl; now rewrite <- app_assoc|].
           split; [intros ev [<-|[<-|[]]]; [now left | right; eauto]|].
           exists e. split; [reflexivity|]. right. exists r1, w1. auto.
      * intros H. injection H as <- <-.
        exists [git_event env ["write-tree"] o].
        split; [reflexivity|]. split; [intros ev [<-|[]]; now left|].
        exact (nothing_no_tree env o _ r1 w1 H1 Ht1).
    + intros H. injection H as <- <-.
      exists [git_event env ["write-tree"] o].
      split; [reflexivity|]. split; [intros ev [<-|[]]; now left|].
      exists e. split; [reflexivity|]. now left.
  - intros x ->. unfold gitStashSave. now rewrite (bind_rejected _ _ _ _ _ H).
Qed.

End SaveFailures.

Lemma hasUnstagedFiles_only_reads_witness :
  gitStashSave Script.env None (initial_state broken_index_disk) =
    (Rejected (CommandFailed (mkCommandError 128 "" "")),
     mkState JUndefined JNull [] (Script.mkDisk [] []) [EvGit ["write-tree"] "/repo"]).
Proof.
  exact (proj2 (hasUnstagedFiles_only_reads Script.env None
                  (initial_state broken_index_disk) _ _ eq_refl) _ eq_refl).
Defined.

Section SaveNotAtomic.
Context {W : Type} (env : Env W).

(** X4. [gitStashSave] takes its steps one after the other and undoes
    none.  If the patch file cannot be written, it rejects with the error of
    the write: [patchPath] is what it was and [git stash] is not run.  If
    the file is written but [git stash --keep-index] fails, it rejects with
    that error while the patch file is already written and [patchPath]
    already holds its path. *)
Theorem gitStashSave_not_atomic o (s : state W) w2 evs e w4 evs' :
  unstaged_detected env o (world s) w2 evs ->
  capture_rejected env o w2 e w4 evs' ->
  (forall x w5,
      fs_writeFile env (patch_file env o) (JStr (cmd_stdout e)) w4 = (Rejected x, w5) ->
      gitStashSave env o s =
        (Rejected x,
         after_calls
           (evs ++ evs' ++ [EvWriteFile (patch_file env o) (JStr (cmd_stdout e))])
           w5 s))
  /\
  (forall w5 e6 w6,
      fs_writeFile env (patch_file env o) (JStr (cmd_stdout e)) w4 = (Resolved tt, w5) ->
      git_at env ["stash"; "--keep-index"] o w5 = (inr e6, w6) ->
      gitStashSave env o s =
        (Rejected (CommandFailed e6),
         mkState (JStr (patch_file env o)) (workTree s) (trees s) w6
           (log s ++ evs ++ evs' ++
            [EvWriteFile (patch_file env o) (JStr (cmd_stdout e));
             git_event env ["stash"; "--keep-index"] o])%list)).
Proof.
  intros Hdet Hcap. split.
  - intros x w5 Hw. unfold gitStashSave.
    rewrite (bind_resolved _ _ _ _ _ (hasUnstagedFiles_detected env o s w2 evs Hdet)).
    cbv iota.
    erewrite bind_rejected; cycle 1.
    { rewrite (generatePatch_rejected env o (after_calls evs w2 s) e w4 evs' _ w5 Hcap Hw).
      reflexivity. }
    now rewrite after_calls_app.
  - intros w5 e6 w6 Hw H6. unfold gitStashSave.
    rewrite (bind_resolved _ _ _ _ _ (hasUnstagedFiles_detected env o s w2 evs Hdet)).
    cbv iota.
    erewrite bind_resolved; cycle 1.
    { rewrite (generatePatch_rejected env o (after_calls evs w2 s) e w4 evs' _ w5 Hcap Hw).
      reflexivity. }
    rewrite after_calls_app. js_unfold. js_simpl. cbn [after_calls world]. rewrite H6.
    unfold set_patchPath, after_calls, record_call. js_simpl.
    now rewrite <- !app_assoc.
Qed.

(** X5. Detection and capture are two different diffs.  If the first lists
    a path and the second reports no difference, [gitStashSave] still runs
    [git stash --keep-index] and resolves, but [patchPath] is now
    [undefined], whatever it held before: the [gitStashPop] that follows
    fails with "No patch found" and runs nothing. *)
Theorem gitStashSave_without_patch o (s : state W) w2 evs w4 evs' r6 w6 :
  unstaged_detected env o (world s) w2 evs ->
  capture_clean env o w2 w4 evs' ->
  git_at env ["stash"; "--keep-index"] o w4 = (inl r6, w6) ->
  exists s1,
    gitStashSave env o s = (Resolved (Some r6), s1)
    /\ patchPath s1 = JUndefined
    /\ world s1 = w6
    /\ log s1 = (log s ++ evs ++ evs' ++ [git_event env ["stash"; "--keep-index"] o])%list
    /\ gitStashPop env o s1 = (Rejected no_patch, s1).
Proof.
  intros Hdet Hcap H6.
  exists (mkState JUndefined (workTree s) (trees s) w6
            (log s ++ evs ++ evs' ++ [git_event env ["stash"; "--keep-index"] o])).
  split; [|repeat split].
  unfold gitStashSave.
  rewrite (bind_resolved _ _ _ _ _ (hasUnstagedFiles_detected env o s w2 evs Hdet)).
  cbv iota.
  rewrite (bind_resolved _ _ _ _ _
             (generatePatch_clean env o (after_calls evs w2 s) w4 evs' Hcap)).
  rewrite after_calls_app. js_unfold. js_simpl. cbn [after_calls world]. rewrite H6.
  unfold set_patchPath, after_calls, record_call. js_simpl.
  now rewrite <- !app_assoc.
Qed.

(** X6. [cleanup] when the stash entry is dropped but the patch file cannot
    be unlinked: the error of [unlink] is the rejection, and [patchPath] is
    not cleared although the stash entry is gone. *)
Theorem cleanup_unlink_rejected o (s : state W) r w1 x w2 :
  git_at env ["stash"; "drop"] o (world s) = (inl r, w1) ->
  fs_unlink env (patchPath s) w1 = (Rejected x, w2) ->
  cleanup env o s =
    (Rejected x,
     mkState (patchPath s) (workTree s) (trees s) w2
       (log s ++ [git_event env ["stash"; "drop"] o; EvUnlink (patchPath s)])%list).
Proof.
  intros Hd Hu. unfold cleanup. js_unfold. rewrite Hd. js_simpl. rewrite Hu.
  unfold record_call. js_simpl. now rewrite <- app_assoc.
Qed.

End SaveNotAtomic.

Lemma script_detected replies :
  unstaged_detected Script.env None (detected_then replies)
    (Script.mkDisk ([Script.ok "T"; Script.fails 1 "diff --git a/a.txt b/a.txt"] ++ replies) [])
    [EvGit ["write-tree"] "/repo"; EvGit (name_only_args "T") "/repo"].
Proof.
  exact (detected Script.env None (detected_then replies)
           (mkExecResult "T" "")
           (Script.mkDisk ([Script.ok "a.txt"; Script.ok "T";
                            Script.fails 1 "diff --git a/a.txt b/a.txt"] ++ replies) [])
           (mkExecResult "a.txt" "")
           (Script.mkDisk ([Script.ok "T";
                            Script.fails 1 "diff --git a/a.txt b/a.txt"] ++ replies) [])
           eq_refl eq_refl eq_refl eq_refl).
Qed.

Lemma gitStashSave_not_atomic_witness :
  gitStashSave readonly_env None (initial_state (detected_then [])) =
    (Rejected (FsError "EACCES"),
     mkState JUndefined JNull [] (Script.mkDisk [] [])
       [EvGit ["write-tree"] "/repo"; EvGit (name_only_args "T") "/repo";
        EvGit ["write-tree"] "/repo"; EvGit (patch_diff_args "T") "/repo";
        EvWriteFile patch_path (JStr "diff --git a/a.txt b/a.txt")])
  /\ gitStashSave Script.env None (initial_state (detected_then [Script.fails 1 ""])) =
    (Rejected (CommandFailed (mkCommandError 1 "" "")),
     mkState (JStr patch_path) JNull []
       (Script.mkDisk [] [(patch_path, "diff --git a/a.txt b/a.txt")])
       [EvGit ["write-tree"] "/repo"; EvGit (name_only_args "T") "/repo";
        EvGit ["write-tree"] "/repo"; EvGit (patch_diff_args "T") "/repo";
        EvWriteFile patch_path (JStr "diff --git a/a.txt b/a.txt");
        EvGit ["stash"; "--keep-index"] "/repo"]).
Proof.
  split.
  - refine (proj1 (gitStashSave_not_atomic readonly_env None
                     (initial_state (detected_then []))
                     (Script.mkDisk [Script.ok "T";
                                     Script.fails 1 "diff --git a/a.txt b/a.txt"] [])
                     [EvGit ["write-tree"] "/repo"; EvGit (name_only_args "T") "/repo"]
                     (mkCommandError 1 "diff --git a/a.txt b/a.txt" "")
                     (Script.mkDisk [] [])
                     [EvGit ["write-tree"] "/repo"; EvGit (patch_diff_args "T") "/repo"]
                     _ _) _ _ eq_refl).
    + exact (detected readonly_env None (detected_then [])
               (mkExecResult "T" "")
               (Script.mkDisk [Script.ok "a.txt"; Script.ok "T";
                               Script.fails 1 "diff --git a/a.txt b/a.txt"] [])
               (mkExecResult "a.txt" "")
               (Script.mkDisk [Script.ok "T";
                               Script.fails 1 "diff --git a/a.txt b/a.txt"] [])
               eq_refl eq_refl eq_refl eq_refl).
    + exact (rejected_by_diff readonly_env None
               (Script.mkDisk [Script.ok "T";
                               Script.fails 1 "diff --git a/a.txt b/a.txt"] [])
               (mkExecResult "T" "")
               (Script.mkDisk [Script.fails 1 "diff --git a/a.txt b/a.txt"] [])
               (mkCommandError 1 "diff --git a/a.txt b/a.txt" "")
               (Script.mkDisk [] [])
               eq_refl eq_refl eq_refl).
  - refine (proj2 (gitStashSave_not_atomic Script.env None
                     (initial_state (detected_then [Script.fails 1 ""]))
                     (Script.mkDisk [Script.ok "T";
                                     Script.fails 1 "diff --git a/a.txt b/a.txt";
                                     Script.fails 1 ""] [])
                     [EvGit ["write-tree"] "/repo"; EvGit (name_only_args "T") "/repo"]
                     (mkCommandError 1 "diff --git a/a.txt b/a.txt" "")
                     (Script.mkDisk [Script.fails 1 ""] [])
                     [EvGit ["write-tree"] "/repo"; EvGit (patch_diff_args "T") "/repo"]
                     (script_detected [Script.fails 1 ""]) _) _ _ _ eq_refl eq_refl).
    exact (rejected_by_diff Script.env None
             (Script.mkDisk [Script.ok "T";
                             Script.fails 1 "diff --git a/a.txt b/a.txt";
                             Script.fails 1 ""] [])
             (mkExecResult "T" "")
             (Script.mkDisk [Script.fails 1 "diff --git a/a.txt b/a.txt";
                             Script.fails 1 ""] [])
             (mkCommandError 1 "diff --git a/a.txt b/a.txt" "")
             (Script.mkDisk [Script.fails 1 ""] [])
             eq_refl eq_refl eq_refl).
Defined.

Lemma gitStashSave_without_patch_witness :
  exists s1,
    gitStashSave Script.env None
      (mkState (JStr "/old/.lint-staged.patch") JNull [] submodule_disk []) =
      (Resolved (Some (mkExecResult "No local changes to save" "")), s1)
    /\ patchPath s1 = JUndefined
    /\ world s1 = Script.mkDisk [] []
    /\ log s1 =
         [EvGit ["write-tree"] "/repo"; EvGit (name_only_args "T") "/repo";
          EvGit ["write-tree"] "/repo"; EvGit (patch_diff_args "T") "/repo";
          EvGit ["stash"; "--keep-index"] "/repo"]
    /\ gitStashPop Script.env None s1 = (Rejected no_patch, s1).
Proof.
  refine (gitStashSave_without_patch Script.env None
            (mkState (JStr "/old/.lint-staged.patch") JNull [] submodule_disk [])
            (Script.mkDisk [Script.ok "T"; Script.ok "";
                            Script.ok "No local changes to save"] [])
            [EvGit ["write-tree"] "/repo"; EvGit (name_only_args "T") "/repo"]
            (Script.mkDisk [Script.ok "No local changes to save"] [])
            [EvGit ["write-tree"] "/repo"; EvGit (patch_diff_args "T") "/repo"]
            _ _ _ _ eq_refl).
  - exact (detected Script.env None submodule_disk
             (mkExecResult "T" "")
             (Script.mkDisk [Script.ok "vendor/lib"; Script.ok "T"; Script.ok "";
                             Script.ok "No local changes to save"] [])
             (mkExecResult "vendor/lib" "")
             (Script.mkDisk [Script.ok "T"; Script.ok "";
                             Script.ok "No local changes to save"] [])
             eq_refl eq_refl eq_refl eq_refl).
  - exact (clean_no_difference Script.env None
             (Script.mkDisk [Script.ok "T"; Script.ok "";
                             Script.ok "No local changes to save"] [])
             (mkExecResult "T" "")
             (Script.mkDisk [Script.ok ""; Script.ok "No local changes to save"] [])
             (mkExecResult "" "")
             (Script.mkDisk [Script.ok "No local changes to save"] [])
             eq_refl eq_refl eq_refl).
Defined.

Lemma cleanup_unlink_rejected_witness :
  cleanup Script.env None patch_file_lost =
    (Rejected (FsError "ENOENT"),
     mkState (JStr patch_path) JNull [] (Script.mkDisk [] [])
       [EvGit ["stash"; "drop"] "/repo"; EvUnlink (JStr patch_path)]).
Proof.
  exact (cleanup_unlink_rejected Script.env None patch_file_lost
           (mkExecResult "Dropped refs/stash@{0}" "") (Script.mkDisk [] [])
           (FsError "ENOENT") (Script.mkDisk [] []) eq_refl eq_refl).
Defined.

(** ** The tree ledger: [gitStash], [updateStash], [gitPop] *)

Section LedgerSession.
Context {W : Type} (env : Env W).

Lemma gitStash_run o (s : state W) r1 w1 r2 w2 r3 w3 r4 w4 r5 w5 :
  git_at env ["write-tree"] o (world s) = (inl r1, w1) ->
  git_at env ["add"; "."] o w1 = (inl r2, w2) ->
  git_at env ["write-tree"] o w2 = (inl r3, w3) ->
  git_at env ["read-tree"; stdout r1] o w3 = (inl r4, w4) ->
  git_at env ["checkout-index"; "-af"] o w4 = (inl r5, w5) ->
  gitStash env o s =
    (Resolved tt,
     mkState (patchPath s) (JStr (stdout r3)) [stdout r1] w5
       (log s ++ gitStash_events env o (stdout r1))).
Proof.
  intros H1 H2 H3 H4 H5. unfold gitStash. js_unfold.
  rewrite H1. js_simpl. rewrite H2. js_simpl. rewrite H3. js_simpl.
  cbn [nth]. rewrite H4. js_simpl. rewrite H5.
  unfold record_call, gitStash_events. js_simpl. now rewrite <- !app_assoc.
Qed.

(** X7. [gitStash], all five commands succeeding, starts a session afresh:
    whatever the ledger and the working-copy tree were, the ledger is now
    the one tree [write-tree] printed first and [workTree] the tree printed
    after [git add .]; the tree read back into the index is the first one.
    A [gitPop] right after it, if that second tree is not the empty string,
    reads the working-copy tree, checks it out, and layers the first tree
    back. *)
Theorem gitStash_begins_session o (s : state W) r1 w1 r2 w2 r3 w3 r4 w4 r5 w5 :
  git_at env ["write-tree"] o (world s) = (inl r1, w1) ->
  git_at env ["add"; "."] o w1 = (inl r2, w2) ->
  git_at env ["write-tree"] o w2 = (inl r3, w3) ->
  git_at env ["read-tree"; stdout r1] o w3 = (inl r4, w4) ->
  git_at env ["checkout-index"; "-af"] o w4 = (inl r5, w5) ->
  exists s1,
    gitStash env o s = (Resolved tt, s1)
    /\ trees s1 = [stdout r1]
    /\ workTree s1 = JStr (stdout r3)
    /\ patchPath s1 = patchPath s
    /\ world s1 = w5
    /\ log s1 = (log s ++ gitStash_events env o (stdout r1))%list
    /\ (forall r6 w6 r7 w7 r8 w8 r9 w9,
          truthy_str (stdout r3) = true ->
          git_at env ["read-tree"; stdout r3] o w5 = (inl r6, w6) ->
          git_at env ["checkout-index"; "-af"] o w6 = (inl r7, w7) ->
          git_at env ["read-tree"; stdout r1] o w7 = (inl r8, w8) ->
          git_at env ["checkout-index"] o w8 = (inl r9, w9) ->
          gitPop env o s1 =
            (Resolved tt,
             after_calls (gitPop_events env o (stdout r3) (stdout r1)) w9 s1)).
Proof.
  intros H1 H2 H3 H4 H5. eexists.
  split; [exact (gitStash_run o s r1 w1 r2 w2 r3 w3 r4 w4 r5 w5 H1 H2 H3 H4 H5)|].
  repeat split.
  intros r6 w6 r7 w7 r8 w8 r9 w9 Ht H6 H7 H8 H9.
  exact (gitPop_run env o
           (mkState (patchPath s) (JStr (stdout r3)) [stdout r1] w5
              (log s ++ gitStash_events env o (stdout r1)))
           (stdout r3) r6 w6 r7 w7 r8 w8 r9 w9
           eq_refl Ht ltac:(discriminate) H6 H7 H8 H9).
Qed.

(** X8. [gitStash] is not atomic.  The ledger is replaced as soon as the
    first [write-tree] has answered: if [git add .] then fails, the error
    propagates with the ledger already reset to the new tree while
    [workTree] still holds what it held before.  If the first [write-tree]
    fails, the session variables are untouched. *)
Theorem gitStash_partial o (s : state W) :
  (forall e w1,
      git_at env ["write-tree"] o (world s) = (inr e, w1) ->
      gitStash env o s =
        (Rejected (CommandFailed e), after_calls [git_event env ["write-tree"] o] w1 s))
  /\
  (forall r1 w1 e w2,
      git_at env ["write-tree"] o (world s) = (inl r1, w1) ->
      git_at env ["add"; "."] o w1 = (inr e, w2) ->
      gitStash env o s =
        (Rejected (CommandFailed e),
         mkState (patchPath s) (workTree s) [stdout r1] w2
           (log s ++ [git_event env ["write-tree"] o; git_event env ["add"; "."] o]))).
Proof.
  split.
  - intros e w1 H1. unfold gitStash. js_unfold. now rewrite H1.
  - intros r1 w1 e w2 H1 H2. unfold gitStash. js_unfold.
    rewrite H1. js_simpl. rewrite H2.
    unfold record_call. js_simpl. now rewrite <- !app_assoc.
Qed.

(** X9. [updateStash] makes one call, [write-tree].  If it succeeds the
    tree printed is appended to the ledger, whose earlier entries stay; if
    it fails the ledger is unchanged.  [patchPath] and [workTree] are never
    touched.  The tree [gitPop] layers back is the one appended to a
    one-entry ledger; appending to a longer ledger does not change it. *)
Theorem updateStash_appends o (s : state W) res s' :
  updateStash env o s = (res, s') ->
  patchPath s' = patchPath s
  /\ workTree s' = workTree s
  /\ log s' = (log s ++ [git_event env ["write-tree"] o])%list
  /\ match res with
     | Resolved _ =>
         exists r, git_at env ["write-tree"] o (world s) = (inl r, world s')
                   /\ trees s' = (trees s ++ [stdout r])%list
                   /\ (length (trees s) = 1%nat -> layered_tree (trees s') = stdout r)
     | Rejected x =>
         exists e, git_at env ["write-tree"] o (world s) = (inr e, world s')
                   /\ x = CommandFailed e
                   /\ trees s' = trees s
     end
  /\ ((1 < length (trees s))%nat -> layered_tree (trees s') = layered_tree (trees s)).
Proof.
  unfold updateStash. js_unfold.
  destruct (git_at env ["write-tree"] o (world s)) as [[r|e] w1] eqn:H1; js_simpl;
    intros H; injection H as <- <-; js_simpl; repeat split.
  - exists r. repeat split.
    intros Hl. destruct (trees s) as [|t0 [|t1 ts]]; try discriminate. reflexivity.
  - intros Hl. destruct (trees s) as [|t0 [|t1 ts]]; simpl in Hl; try lia.
    unfold layered_tree. simpl length. rewrite length_app. simpl.
    replace (length ts + 1)%nat with (S (length ts)) by lia. reflexivity.
  - exists e. repeat split.
Qed.

(** Every run of [gitPop] on a session that is set up: the calls made are
    a non-empty beginning of the four of a complete run, it stops at the
    first that fails, and the module variables are left alone. *)
Lemma gitPop_trace o (s : state W) wt :
  workTree s = JStr wt -> truthy_str wt = true -> trees s <> [] ->
  exists res w' evs rest,
    gitPop env o s = (res, after_calls evs w' s)
    /\ (evs ++ rest)%list = gitPop_events env o wt (layered_tree (trees s))
    /\ evs <> []
    /\ match res with
       | Resolved _ => rest = []
       | Rejected x => exists e, x = CommandFailed e
       end.
Proof.
  intros Hw Ht Hne. unfold gitPop. unfold bind at 1, get.
  rewrite Hw, Ht.
  destruct (trees s) as [|t0 ts] eqn:Hts; [contradiction|].
  change (negb true || (length (t0 :: ts) =? 0)%nat) with false. cbv iota.
  replace (if (length (t0 :: ts) =? 1)%nat
           then execGit env ["read-tree"; nth 0 (t0 :: ts) ""] o
           else execGit env ["read-tree"; nth 1 (t0 :: ts) ""] o)
    with (execGit env ["read-tree"; layered_tree (t0 :: ts)] o)
    by (unfold layered_tree; now destruct (length (t0 :: ts) =? 1)%nat).
  unfold gitPop_events. js_unfold.
  destruct (git_at env ["read-tree"; wt] o (world s)) as [[r1|e1] w1]; js_simpl.
  2:{ exists (Rejected (CommandFailed e1)), w1, [git_event env ["read-tree"; wt] o].
      eexists. repeat split; [discriminate | eauto]. }
  destruct (git_at env ["checkout-index"; "-af"] o w1) as [[r2|e2] w2]; js_simpl.
  2:{ exists (Rejected (CommandFailed e2)), w2,
        [git_event env ["read-tree"; wt] o; git_event env ["checkout-index"; "-af"] o].
      eexists. split; [|split; [reflexivity|split; [discriminate|eauto]]].
      unfold after_calls, record_call. js_simpl. now rewrite <- !app_assoc, Hts. }
  destruct (git_at env ["read-tree"; layered_tree (t0 :: ts)] o w2) as [[r3|e3] w3];
    js_simpl.
  2:{ exists (Rejected (CommandFailed e3)), w3,
        [git_event env ["read-tree"; wt] o; git_event env ["checkout-index"; "-af"] o;
         git_event env ["read-tree"; layered_tree (t0 :: ts)] o].
      eexists. split; [|split; [reflexivity|split; [discriminate|eauto]]].
      unfold after_calls, record_call. js_simpl. now rewrite <- !app_assoc, Hts. }
  destruct (git_at env ["checkout-index"] o w3) as [[r4|e4] w4].
  - exists (Resolved tt), w4,
      [git_event env ["read-tree"; wt] o; git_event env ["checkout-index"; "-af"] o;
       git_event env ["read-tree"; layered_tree (t0 :: ts)] o;
       git_event env ["checkout-index"] o], [].
    split; [|split; [reflexivity|split; [discriminate|reflexivity]]].
    unfold after_calls, record_call. js_simpl. now rewrite <- !app_assoc, Hts.
  - exists (Rejected (CommandFailed e4)), w4,
      [git_event env ["read-tree"; wt] o; git_event env ["checkout-index"; "-af"] o;
       git_event env ["read-tree"; layered_tree (t0 :: ts)] o;
       git_event env ["checkout-index"] o], [].
    split; [|split; [reflexivity|split; [discriminate|eauto]]].
    unfold after_calls, record_call. js_simpl. now rewrite <- !app_assoc, Hts.
Qed.

(** X10. [gitPop] rejects with "Need 2 tree-ish to be set!", having run
    nothing, exactly when [workTree] is falsy -- [null], or the empty
    string an empty [write-tree] output would have left -- or the ledger
    is empty. *)
Theorem gitPop_refuses_iff o (s : state W) :
  (truthy (workTree s) = false \/ trees s = [])
  <-> gitPop env o s = (Rejected need_trees, s).
Proof.
  split; [apply gitPop_requires|].
  intros H. destruct (truthy (workTree s)) eqn:Ht; [|now left].
  destruct (trees s) as [|t0 ts] eqn:Hts; [now right|]. exfalso.
  destruct (workTree s) as [| |wt] eqn:Hw; try discriminate.
  destruct (gitPop_trace o s wt Hw Ht) as (res & w' & evs & rest & Hrun & _ & Hne & _);
    [rewrite Hts; discriminate|].
  rewrite Hrun in H. injection H as _ H.
  apply (f_equal log) in H. unfold after_calls in H. js_simpl.
  simpl in H. apply (f_equal (@length event)) in H. rewrite length_app in H.
  destruct evs; [contradiction|]. simpl in H. lia.
Qed.

(** X11. Whatever [gitPop] ends with, [patchPath], [workTree] and the
    ledger are what they were, so that the session is not closed by it.  If
    it ran at all, it began with [read-tree] of the working-copy tree, made
    its calls in the order of a complete run, and stopped at the first one
    git rejected, whose error is then its rejection. *)
Theorem gitPop_keeps_session o (s : state W) res s' :
  gitPop env o s = (res, s') ->
  patchPath s' = patchPath s /\ workTree s' = workTree s /\ trees s' = trees s
  /\ ((res = Rejected need_trees /\ s' = s)
      \/ exists wt evs rest,
           workTree s = JStr wt
           /\ log s' = (log s ++ git_event env ["read-tree"; wt] o :: evs)%list
           /\ (git_event env ["read-tree"; wt] o :: evs ++ rest)%list
              = gitPop_events env o wt (layered_tree (trees s))
           /\ match res with
              | Resolved _ => rest = []
              | Rejected x => exists e, x = CommandFailed e
              end).
Proof.
  intros H.
  destruct (truthy (workTree s)) eqn:Ht.
  2:{ rewrite (gitPop_requires env o s (or_introl Ht)) in H. injection H as <- <-.
      repeat split. now left. }
  destruct (trees s) as [|t0 ts] eqn:Hts.
  { rewrite (gitPop_requires env o s (or_intror Hts)) in H. injection H as <- <-.
    rewrite Hts. repeat split. now left. }
  destruct (workTree s) as [| |wt] eqn:Hw; try discriminate.
  destruct (gitPop_trace o s wt Hw Ht) as (res0 & w' & evs & rest & Hrun & Hev & Hne & Hres);
    [rewrite Hts; discriminate|].
  rewrite Hrun in H. injection H as <- <-.
  unfold after_calls. js_simpl. repeat split; auto.
  right. destruct evs as [|ev evs]; [contradiction|].
  unfold gitPop_events in Hev. injection Hev as -> Hev.
  rewrite Hts in Hev.
  exists wt, evs, rest. repeat split; auto.
  unfold gitPop_events. now rewrite <- Hev.
Qed.

End LedgerSession.

Lemma gitStash_begins_session_witness :
  exists s1,
    gitStash Script.env None (stale_ledger begin_end_disk) = (Resolved tt, s1)
    /\ trees s1 = ["T0"]
    /\ workTree s1 = JStr "W"
    /\ gitPop Script.env None s1 =
         (Resolved tt,
          after_calls
            [EvGit ["read-tree"; "W"] "/repo"; EvGit ["checkout-index"; "-af"] "/repo";
             EvGit ["read-tree"; "T0"] "/repo"; EvGit ["checkout-index"] "/repo"]
            (Script.mkDisk [] []) s1).
Proof.
  destruct (gitStash_begins_session Script.env None (stale_ledger begin_end_disk)
              (mkExecResult "T0" "")
              (Script.mkDisk [Script.ok ""; Script.ok "W"; Script.ok ""; Script.ok "";
                              Script.ok ""; Script.ok ""; Script.ok ""; Script.ok ""] [])
              (mkExecResult "" "")
              (Script.mkDisk [Script.ok "W"; Script.ok ""; Script.ok "";
                              Script.ok ""; Script.ok ""; Script.ok ""; Script.ok ""] [])
              (mkExecResult "W" "")
              (Script.mkDisk [Script.ok ""; Script.ok "";
                              Script.ok ""; Script.ok ""; Script.ok ""; Script.ok ""] [])
              (mkExecResult "" "")
              (Script.mkDisk [Script.ok "";
                              Script.ok ""; Script.ok ""; Script.ok ""; Script.ok ""] [])
              (mkExecResult "" "")
              (Script.mkDisk [Script.ok ""; Script.ok ""; Script.ok ""; Script.ok ""] [])
              eq_refl eq_refl eq_refl eq_refl eq_refl)
    as (s1 & Hrun & Htrees & Hwt & _ & Hworld & _ & Hpop).
  exists s1. repeat split; try assumption.
  refine (Hpop (mkExecResult "" "") (Script.mkDisk [Script.ok ""; Script.ok ""; Script.ok ""] [])
               (mkExecResult "" "") (Script.mkDisk [Script.ok ""; Script.ok ""] [])
               (mkExecResult "" "") (Script.mkDisk [Script.ok ""] [])
               (mkExecResult "" "") (Script.mkDisk [] [])
               eq_refl _ _ _ _);
    rewrite ?Hworld; reflexivity.
Defined.

Lemma gitStash_partial_witness :
  gitStash Script.env None (stale_ledger add_fails_disk) =
    (Rejected (CommandFailed (mkCommandError 128 "" "")),
     mkState JUndefined (JStr "W9") ["T0"] (Script.mkDisk [] [])
       [EvGit ["write-tree"] "/repo"; EvGit ["add"; "."] "/repo"]).
Proof.
  exact (proj2 (gitStash_partial Script.env None (stale_ledger add_fails_disk))
           (mkExecResult "T0" "") (Script.mkDisk [Script.fails 128 ""] [])
           (mkCommandError 128 "" "") (Script.mkDisk [] [])
           eq_refl eq_refl).
Defined.

Lemma updateStash_appends_witness :
  trees (snd (updateStash Script.env None
                (mkState JUndefined (JStr "W") ["T0"]
                   (Script.mkDisk [Script.ok "T1"] []) []))) = ["T0"; "T1"]
  /\ layered_tree
       (trees (snd (updateStash Script.env None
                      (mkState JUndefined (JStr "W") ["T0"]
                         (Script.mkDisk [Script.ok "T1"] []) [])))) = "T1".
Proof.
  destruct (updateStash_appends Script.env None
              (mkState JUndefined (JStr "W") ["T0"] (Script.mkDisk [Script.ok "T1"] []) [])
              (Resolved tt)
              (mkState JUndefined (JStr "W") ["T0"; "T1"] (Script.mkDisk [] [])
                 [EvGit ["write-tree"] "/repo"])
              eq_refl) as (_ & _ & _ & (r & Hr & Htrees & Hlay) & _).
  injection Hr as <-. split; [exact Htrees | exact (Hlay eq_refl)].
Defined.

Lemma gitPop_keeps_session_witness :
  exists s',
    gitPop Script.env None
      (mkState JUndefined (JStr "W") ["T0"; "T1"]
         (Script.mkDisk [Script.ok ""; Script.fails 128 ""] []) []) =
      (Rejected (CommandFailed (mkCommandError 128 "" "")), s')
    /\ workTree s' = JStr "W"
    /\ trees s' = ["T0"; "T1"].
Proof.
  eexists. split; [reflexivity|].
  destruct (gitPop_keeps_session Script.env None
              (mkState JUndefined (JStr "W") ["T0"; "T1"]
                 (Script.mkDisk [Script.ok ""; Script.fails 128 ""] []) [])
              _ _ eq_refl) as (_ & Hw & Ht & _).
  split; [exact Hw | exact Ht].
Defined.

(** ** A path left over, the options, and what capture resolves with *)

Section Leftovers.
Context {W : Type} (env : Env W).

(** X12. [gitStashSave] never forgets a path.  If [patchPath] still holds
    a path from before and nothing unstaged is detected, it is still there
    after the save, and the [gitStashPop] that follows does what
    [gitApplyPatch] does with that older path instead of throwing
    "No patch found". *)
Theorem gitStashSave_keeps_older_patch o (s : state W) w' evs p :
  nothing_unstaged env o (world s) w' evs ->
  patchPath s = JStr p -> truthy_str p = true ->
  exists s1,
    gitStashSave env o s = (Resolved None, s1)
    /\ patchPath s1 = JStr p
    /\ world s1 = w'
    /\ gitStashPop env o s1 = gitApplyPatch env p o s1.
Proof.
  intros H Hp Ht. exists (after_calls evs w' s).
  split; [now apply gitStashSave_nothing|]. split; [exact Hp|]. split; [reflexivity|].
  now apply gitStashPop_truthy.
Qed.

(** X13. The options matter only through the call they make [execGit]
    build: two [options] values with the same effective working directory
    and the same [--git-dir] arguments give the same [execGit] and the same
    exported functions.  Options that are present but empty are such a
    pair with no options at all. *)
Theorem options_matter_through_the_call o1 o2 :
  same_call env o1 o2 ->
  (forall cmd, execGit env cmd o1 = execGit env cmd o2)
  /\ getUnstagedFiles env o1 = getUnstagedFiles env o2
  /\ hasUnstagedFiles env o1 = hasUnstagedFiles env o2
  /\ gitStashSave env o1 = gitStashSave env o2
  /\ gitStashPop env o1 = gitStashPop env o2
  /\ updateStash env o1 = updateStash env o2
  /\ gitStash env o1 = gitStash env o2
  /\ gitPop env o1 = gitPop env o2.
Proof.
  intros [Hc Hg].
  repeat split; intros;
    unfold gitPop, gitStash, updateStash, writeTree, gitStashPop, gitApplyPatch, cleanup,
      gitPopWithConflicts, gitApply, gitStashSave, generatePatch, patch_file,
      hasUnstagedFiles, getUnstagedFiles, execGit, git_event, git_at, git_argv, git_dir;
    now rewrite Hc, Hg.
Qed.

(** X14. What [generatePatch] can resolve with.  It never touches the
    module variables (remembering the path is left to [gitStashSave]), and
    it resolves either with [undefined], having called only git and found
    no difference, or with the one path [path.join(cwd,
    '.lint-staged.patch')], its last call then being the [writeFile] to
    that path: never with [null], never with another path. *)
Theorem generatePatch_resolves_with o (s : state W) v s' :
  generatePatch env o s = (Resolved v, s') ->
  patchPath s' = patchPath s /\ workTree s' = workTree s /\ trees s' = trees s
  /\ ((v = JUndefined
       /\ exists evs, log s' = (log s ++ evs)%list
                      /\ capture_clean env o (world s) (world s') evs)
      \/ (v = JStr (patch_file env o)
          /\ exists e w evs,
               capture_rejected env o (world s) e w evs
               /\ fs_writeFile env (patch_file env o) (JStr (cmd_stdout e)) w
                  = (Resolved tt, world s')
               /\ log s' = (log s ++ evs ++
                            [EvWriteFile (patch_file env o) (JStr (cmd_stdout e))])%list)).
Proof.
  unfold generatePatch. js_unfold.
  destruct (git_at env ["write-tree"] o (world s)) as [[r|e] w1] eqn:Ht; js_simpl.
  - destruct (truthy_str (stdout r)) eqn:Htr; js_simpl.
    + destruct (git_at env (patch_diff_args (stdout r)) o w1) as [[r2|e] w2] eqn:Hd;
        js_simpl.
      * intros H. injection H as <- <-. js_simpl. repeat split. left.
        split; [reflexivity|]. eexists. split; [now rewrite <- app_assoc|].
        exact (clean_no_difference env o _ r w1 r2 w2 Ht Htr Hd).
      * cbn [error_stdout].
        destruct (fs_writeFile env (patch_file env o) (JStr (cmd_stdout e)) w2)
          as [[[]|y] w3] eqn:Hw; [|discriminate].
        intros H. injection H as <- <-. js_simpl. repeat split. right.
        split; [reflexivity|]. exists e, w2. eexists.
        split; [exact (rejected_by_diff env o _ r w1 e w2 Ht Htr Hd)|].
        split; [exact Hw|]. now rewrite <- !app_assoc.
    + intros H. injection H as <- <-. js_simpl. repeat split. left.
      split; [reflexivity|]. eexists. split; [reflexivity|].
      exact (clean_no_tree env o _ r w1 Ht Htr).
  - cbn [error_stdout].
    destruct (fs_writeFile env (patch_file env o) (JStr (cmd_stdout e)) w1)
      as [[[]|y] w3] eqn:Hw; [|discriminate].
    intros H. injection H as <- <-. js_simpl. repeat split. right.
    split; [reflexivity|]. exists e, w1. eexists.
    split; [exact (rejected_by_write_tree env o _ e w1 Ht)|].
    split; [exact Hw|]. now rewrite <- !app_assoc.
Qed.

End Leftovers.

Lemma gitStashSave_keeps_older_patch_witness :
  exists s1,
    gitStashSave Script.env None
      (mkState (JStr patch_path) JNull [] (Script.mkDisk [Script.ok ""] []) []) =
      (Resolved None, s1)
    /\ patchPath s1 = JStr patch_path
    /\ world s1 = Script.mkDisk [] []
    /\ gitStashPop Script.env None s1 = gitApplyPatch Script.env patch_path None s1.
Proof.
  exact (gitStashSave_keeps_older_patch Script.env None
           (mkState (JStr patch_path) JNull [] (Script.mkDisk [Script.ok ""] []) [])
           (Script.mkDisk [] []) [EvGit ["write-tree"] "/repo"] patch_path
           (nothing_no_tree Script.env None (Script.mkDisk [Script.ok ""] [])
              (mkExecResult "" "") (Script.mkDisk [] []) eq_refl eq_refl)
           eq_refl eq_refl).
Defined.

Lemma options_matter_through_the_call_witness :
  same_call Script.env empty_options None
  /\ gitStashSave Script.env empty_options = gitStashSave Script.env None
  /\ gitStashPop Script.env empty_options = gitStashPop Script.env None.
Proof.
  assert (H : same_call Script.env empty_options None) by (split; reflexivity).
  split; [exact H|].
  destruct (options_matter_through_the_call Script.env empty_options None H)
    as (_ & _ & _ & Hsave & Hpop & _).
  split; assumption.
Defined.

Lemma generatePatch_resolves_with_witness :
  exists e w evs,
    capture_rejected Script.env None capture_disk e w evs
    /\ fs_writeFile Script.env patch_path (JStr (cmd_stdout e)) w
       = (Resolved tt,
          Script.mkDisk [] [(patch_path, "diff --git a/a.txt b/a.txt")]).
Proof.
  destruct (generatePatch_resolves_with Script.env None (initial_state capture_disk)
              (JStr patch_path)
              (mkState JUndefined JNull []
                 (Script.mkDisk [] [(patch_path, "diff --git a/a.txt b/a.txt")])
                 [EvGit ["write-tree"] "/repo";
                  EvGit (patch_diff_args "4b825dc642cb6eb9a060e54bf8d69288fbee4904") "/repo";
                  EvWriteFile patch_path (JStr "diff --git a/a.txt b/a.txt")])
              eq_refl) as (_ & _ & _ & [(Hv & _) | (_ & e & w & evs & Hc & Hw & _)]).
  - discriminate Hv.
  - exists e, w, evs. split; assumption.
Defined.

(** ** What a run leaves in the module variables *)

(** Case analysis on the next answer of git or of the file system. *)
Ltac next_answer :=
  js_simpl;
  match goal with
  | |- context [git_at ?E ?C ?O ?X] =>
      destruct (git_at E C O X) as [[?r|?e] ?w]
  | |- context [fs_unlink ?E ?P ?X] =>
      destruct (fs_unlink E P X) as [[[]|?x] ?w]
  | |- context [fs_writeFile ?E ?P ?D ?X] =>
      destruct (fs_writeFile E P D X) as [[[]|?x] ?w]
  end.

Section Outcomes.
Context {W : Type} (env : Env W).

(** X15. How [gitStashPop] leaves [patchPath]: [null] whenever it
    resolves, untouched whenever it rejects -- so that after any failure
    the patch is still remembered and restoring can be tried again.  The
    tree ledger and [workTree] are never touched. *)
Theorem gitStashPop_outcome o (s : state W) res s' :
  gitStashPop env o s = (res, s') ->
  workTree s' = workTree s /\ trees s' = trees s
  /\ match res with
     | Resolved _ => patchPath s' = JNull
     | Rejected _ => patchPath s' = patchPath s
     end.
Proof.
  unfold gitStashPop. unfold bind at 1, get.
  destruct (patchPath s) as [| |p] eqn:Hp;
    try (intros H; injection H as <- <-; now rewrite Hp).
  destruct (truthy_str p); cbn [negb]; cbv beta iota;
    [|intros H; injection H as <- <-; now rewrite Hp].
  unfold gitApplyPatch, cleanup, gitPopWithConflicts. js_unfold.
  repeat next_answer; js_simpl;
    intros H; injection H as <- <-; js_simpl; repeat split; auto.
Qed.

(** X16. The two strategies keep to their own variables.  [gitStashSave],
    however it ends, leaves [workTree] and the ledger alone, and
    [patchPath] is then what it was, or [undefined], or the one patch path:
    it is what it was when the result is [null], and never becomes [null]
    otherwise.  [gitStash], however it ends, leaves [patchPath] alone. *)
Theorem strategies_keep_apart o (s : state W) :
  (forall res s',
      gitStashSave env o s = (res, s') ->
      workTree s' = workTree s /\ trees s' = trees s
      /\ (patchPath s' = patchPath s
          \/ patchPath s' = JUndefined
          \/ patchPath s' = JStr (patch_file env o))
      /\ (res = Resolved None -> patchPath s' = patchPath s))
  /\
  (forall res s',
      gitStash env o s = (res, s') -> patchPath s' = patchPath s).
Proof.
  split.
  - intros res s'. unfold gitStashSave, hasUnstagedFiles, getUnstagedFiles, generatePatch.
    js_unfold.
    repeat (first [ next_answer
                  | match goal with
                    | |- context [truthy_str (stdout ?R)] =>
                        destruct (truthy_str (stdout R)); rewrite ?split_lines_length
                    end ]);
      js_simpl; cbn [length Nat.ltb Nat.leb];
      intros H; injection H as <- <-; js_simpl; repeat split; auto; discriminate.
  - intros res s'. unfold gitStash. js_unfold.
    repeat next_answer; js_simpl;
      intros H; injection H as <- <-; reflexivity.
Qed.

End Outcomes.

Lemma gitStashPop_outcome_witness :
  fst (gitStashPop Script.env None (stashed [Script.fails 1 ""; Script.fails 1 ""]))
    = Rejected (CommandFailed (mkCommandError 1 "" ""))
  /\ patchPath (snd (gitStashPop Script.env None
                       (stashed [Script.fails 1 ""; Script.fails 1 ""])))
     = JStr patch_path.
Proof.
  split; [reflexivity|].
  exact (proj2 (proj2 (gitStashPop_outcome Script.env None
                         (stashed [Script.fails 1 ""; Script.fails 1 ""])
                         (Rejected (CommandFailed (mkCommandError 1 "" "")))
                         (snd (gitStashPop Script.env None
                                 (stashed [Script.fails 1 ""; Script.fails 1 ""])))
                         eq_refl))).
Defined.

Lemma strategies_keep_apart_witness :
  workTree (snd (gitStashSave Toy.env None
                   (mkState JUndefined (JStr "W") ["T0"; "T1"] Toy.edited [])))
    = JStr "W"
  /\ trees (snd (gitStashSave Toy.env None
                   (mkState JUndefined (JStr "W") ["T0"; "T1"] Toy.edited [])))
     = ["T0"; "T1"].
Proof.
  destruct (proj1 (strategies_keep_apart Toy.env None
                     (mkState JUndefined (JStr "W") ["T0"; "T1"] Toy.edited []))
              (fst (gitStashSave Toy.env None
                      (mkState JUndefined (JStr "W") ["T0"; "T1"] Toy.edited [])))
              (snd (gitStashSave Toy.env None
                      (mkState JUndefined (JStr "W") ["T0"; "T1"] Toy.edited [])))
              eq_refl) as (Hw & Ht & _).
  split; [exact Hw | exact Ht].
Defined.

Section SaveResult.
Context {W : Type} (env : Env W).

(** X17. What the result of [gitStashSave] tells its caller.  It is [null]
    exactly when detection resolved [false], and the state is then the one
    detection left.  When it is not [null], it is what
    [git stash --keep-index] resolved with, and that command was the last
    call made. *)
Theorem gitStashSave_result o (s : state W) s' :
  (gitStashSave env o s = (Resolved None, s')
   <-> hasUnstagedFiles env o s = (Resolved false, s'))
  /\
  (forall r,
      gitStashSave env o s = (Resolved (Some r), s') ->
      exists s1 s2,
        hasUnstagedFiles env o s = (Resolved true, s1)
        /\ fst (generatePatch env o s1) = Resolved (patchPath s')
        /\ s2 = snd (generatePatch env o s1)
        /\ git_at env ["stash"; "--keep-index"] o (world s2) = (inl r, world s')
        /\ log s' = (log s2 ++ [git_event env ["stash"; "--keep-index"] o])%list).
Proof.
  unfold gitStashSave.
  destruct (hasUnstagedFiles env o s) as [[[|]|x] s1] eqn:Hh.
  - rewrite (bind_resolved _ _ _ _ _ Hh). cbv iota. js_unfold.
    destruct (generatePatch env o s1) as [[v|y] s2] eqn:Hg.
    2:{ split; [split; discriminate | intros r; discriminate]. }
    js_simpl.
    destruct (git_at env ["stash"; "--keep-index"] o (world s2)) as [[r6|e] w] eqn:H6.
    2:{ split; [split; discriminate | intros r; discriminate]. }
    split; [split; discriminate|].
    intros r H. injection H as <- <-. exists s1, s2. js_simpl. rewrite Hg. auto.
  - rewrite (bind_resolved _ _ _ _ _ Hh). cbv iota. unfold ret.
    split; [|intros r; discriminate].
    split; intros H; injection H as <-; reflexivity.
  - rewrite (bind_rejected _ _ _ _ _ Hh).
    split; [split; discriminate | intros r; discriminate].
Qed.

End SaveResult.

Lemma gitStashSave_result_witness :
  exists s1 s2,
    hasUnstagedFiles Toy.env None (initial_state Toy.edited) = (Resolved true, s1)
    /\ fst (generatePatch Toy.env None s1) = Resolved (JStr patch_path)
    /\ s2 = snd (generatePatch Toy.env None s1)
    /\ log (snd (gitStashSave Toy.env None (initial_state Toy.edited)))
       = (log s2 ++ [EvGit ["stash"; "--keep-index"] "/repo"])%list.
Proof.
  destruct (proj2 (gitStashSave_result Toy.env None (initial_state Toy.edited)
                     (snd (gitStashSave Toy.env None (initial_state Toy.edited))))
              (mkExecResult "Saved working directory and index state" "")
              eq_refl) as (s1 & s2 & H1 & H2 & H3 & _ & H5).
  exists s1, s2. repeat split; assumption.
Defined.

Lemma gitPop_refuses_iff_witness :
  gitPop Script.env None (mkState JUndefined (JStr "") ["T0"] begin_end_disk [])
  = (Rejected need_trees, mkState JUndefined (JStr "") ["T0"] begin_end_disk []).
Proof.
  exact (proj1 (gitPop_refuses_iff Script.env None
                  (mkState JUndefined (JStr "") ["T0"] begin_end_disk []))
           (or_introl eq_refl)).
Defined.

(** * The repository with a history *)

(** ** It keeps the contract *)

Lemma git1_untally_tally n rest :
  Git1.untally (Git1.tally n ++ rest) = Some (n, rest).
Proof.
  induction n as [|n IH]; [reflexivity|].
  simpl. now rewrite IH.
Qed.

Lemma git1_split_at_length b t :
  Git1.split_at (String.length b) (b ++ t) = Some (b, t).
Proof.
  induction b as [|c b IH]; [reflexivity|].
  simpl. now rewrite IH.
Qed.

(** Decoding a patch gives back the two contents it was made of. *)
Lemma git1_decode_encode b t : Git1.decode (Git1.encode b t) = Some (b, t).
Proof.
  unfold Git1.decode, Git1.encode.
  rewrite git1_untally_tally. apply git1_split_at_length.
Qed.

(** A patch applies to its own base, and to no other content. *)
Lemma git1_apply_to_base b t x :
  Git1.apply_to (Git1.encode b t) x = if b =? x then Some t else None.
Proof. unfold Git1.apply_to. now rewrite git1_decode_encode. Qed.

Lemma git1_contract : GitContract Git1.env None Git1.view.
Proof.
  constructor; unfold git_at, git_argv, git_dir, same_repo; simpl.
  - intros w r w' H. injection H as _ <-. repeat split.
  - intros t w r w' H. injection H as _ <-. repeat split.
  - intros t w r w' H. destruct (Git1.file_differs w);
      injection H as _ <-; repeat split.
  - intros w r w1 e w2 H1 H He. injection H1 as _ <-.
    destruct (Git1.file_differs w); [|discriminate].
    injection H as <- _. simpl.
    now rewrite git1_apply_to_base, String.eqb_refl.
  - intros d w w' H. injection H as <-. simpl. repeat split.
  - intros w w' H.
    destruct (Toy.lookup "/repo/.lint-staged.patch" (Git1.untracked w)); [|discriminate].
    injection H as <-. simpl. repeat split. apply toy_lookup_without.
  - intros w r w' H. unfold Git1.local_changes in H.
    destruct (String.eqb_spec (Git1.work w) (Git1.index w)) as [E|E];
      destruct (Git1.index w =? Git1.head w);
      simpl in H; injection H as _ <-; simpl; repeat split; try assumption;
      try (intros Hne; contradiction); intros _; eexists; reflexivity.
  - intros w r w' H. injection H as _ <-. repeat split.
  - intros w r w' H.
    destruct (Toy.lookup "/repo/.lint-staged.patch" (Git1.untracked w)) as [d|] eqn:E;
      [|discriminate].
    destruct (Git1.apply_to d (Git1.work w)) as [t|] eqn:Ea; [|discriminate].
    injection H as _ <-. simpl. repeat split. now exists d.
  - intros w r w' H. destruct (Git1.stash w) as [|en older] eqn:E; [discriminate|].
    injection H as _ <-. simpl. repeat split.
Qed.

(** ** Saving and restoring in it *)

Lemma git1_stash_saved :
  stash_saved Git1.env None Git1.edited
    (mkCommandError 1 (Git1.encode "v1" "v2") "")
    (mkExecResult "Saved working directory and index state" "")
    (Git1.mkRepo "v0" "v1" "v1" false false [("v0", "v1", "v2")]
       [(patch_path, Git1.encode "v1" "v2")])
    [EvGit ["write-tree"] "/repo"; EvGit (name_only_args "tree:v1") "/repo";
     EvGit ["write-tree"] "/repo"; EvGit (patch_diff_args "tree:v1") "/repo";
     EvWriteFile patch_path (JStr (Git1.encode "v1" "v2"));
     EvGit ["stash"; "--keep-index"] "/repo"].
Proof.
  refine (saved Git1.env None Git1.edited Git1.edited _
            (mkExecResult "tree:v1" "") Git1.edited
            (mkCommandError 1 (Git1.encode "v1" "v2") "") Git1.edited
            (Git1.mkRepo "v0" "v1" "v2" false false []
               [(patch_path, Git1.encode "v1" "v2")])
            _ _
            (detected Git1.env None Git1.edited
               (mkExecResult "tree:v1" "") Git1.edited (mkExecResult "a.txt" "") Git1.edited
               eq_refl eq_refl eq_refl eq_refl)
            eq_refl eq_refl eq_refl eq_refl eq_refl).
Qed.


(** ** Where the stated properties fail *)


(** C2 fails as stated.  [a.txt] is staged as v1 and edited to v2; after
    [gitStashSave] the hook rewrites it to v1-fixed, which is staged.  The
    patch from v1 to v2 does not apply, conflict recovery runs and
    [gitStashPop] resolves -- but no file holds a conflict marker:
    [git stash pop] brought the edit back over what is committed, and
    [read-tree -m -i], which writes to the index only, staged the hook's
    fix.  The working tree holds v2, the index v1-fixed. *)
Lemma recovery_leaves_no_conflict_markers :
  let saved := snd (gitStashSave Git1.env None (initial_state Git1.edited)) in
  let hooked := outside (Git1.hook_fix "v1-fixed") saved in
  let restored := gitStashPop Git1.env None hooked in
  fst (git_at Git1.env ["apply"; "--whitespace=nowarn"; patch_path] None (world hooked))
    = Git1.fails 1 "error: patch failed: a.txt:1"
  /\ fst restored = Resolved tt
  /\ skipn (length (log hooked)) (log (snd restored)) =
       [EvGit ["checkout"; "--"; "."] "/repo";
        EvGit ["apply"; "--whitespace=nowarn"; patch_path] "/repo";
        EvConsole conflict_msg;
        EvGit ["stash"] "/repo";
        EvGit ["stash"; "pop"; "stash@{1}"] "/repo";
        EvGit ["read-tree"; "-m"; "-i"; "stash"] "/repo";
        EvGit ["stash"; "drop"] "/repo";
        EvUnlink (JStr patch_path)]
  /\ Git1.work (world (snd restored)) = "v2"
  /\ Git1.index (world (snd restored)) = "v1-fixed"
  /\ Git1.has_markers (Git1.work (world (snd restored))) = false.
Proof. repeat split; reflexivity. Qed.



